(** * blueflower: the core of the scanner (blueflower/core.py)

  A shallow embedding of [get_hashes], [init], [scan], [count_secrets],
  [bye] and [main], and the properties of the hash-list activation, of
  the directory walk and of the dispatch loop.

  Python values are modelled as the code has them: the three module
  globals [HASHES], [HASH_KEY] and [HASH_REGEX] are fields of an explicit
  state, every call to a logging sink, to [sys.stdout.write], to [print]
  and to the content scanner [do_file] is appended to a trace of effects,
  and [sys.exit] is a result that short-circuits the rest of the run. *)

From Stdlib Require Import Ascii QArith.
From stdpp Require Import gmap strings list.

Local Open Scope Z_scope.

(** ** Python string methods used by the core *)

Module PyStr.

Definition newline : ascii := Ascii.ascii_of_nat 10.
Definition comma : ascii := Ascii.ascii_of_nat 44.
Definition dquote : string := String (Ascii.ascii_of_nat 34) EmptyString.

(** [str.isspace] on one character of a byte string (C locale):
    space, \t, \n, \v, \f, \r. *)
Definition isspace (c : ascii) : bool :=
  let n := Ascii.nat_of_ascii c in
  ((9 <=? n)%nat && (n <=? 13)%nat) || (n =? 32)%nat.

Definition is_newline (c : ascii) : bool := Ascii.eqb c newline.

Fixpoint lstrip_with (p : ascii → bool) (s : string) : string :=
  match s with
  | EmptyString => EmptyString
  | String c s' => if p c then lstrip_with p s' else s
  end.

Fixpoint rstrip_with (p : ascii → bool) (s : string) : string :=
  match s with
  | EmptyString => EmptyString
  | String c s' =>
      match rstrip_with p s' with
      | EmptyString => if p c then EmptyString else String c EmptyString
      | r => String c r
      end
  end.

(** [s.strip()] *)
Definition strip (s : string) : string :=
  rstrip_with isspace (lstrip_with isspace s).

(** [s.rstrip('\n')] *)
Definition rstrip_nl (s : string) : string := rstrip_with is_newline s.

(** [s.split(',')]: never empty, one field more than there are commas. *)
Fixpoint split_comma (s : string) : list string :=
  match s with
  | EmptyString => [EmptyString]
  | String c s' =>
      if Ascii.eqb c comma then EmptyString :: split_comma s'
      else match split_comma s' with
           | [] => [String c EmptyString]
           | f :: fs => String c f :: fs
           end
  end.

(** [fin.readline()] on the unread rest of a text file: the line with its
    newline (the empty string at the end of the file), and what is left. *)
Fixpoint readline (s : string) : string * string :=
  match s with
  | EmptyString => (EmptyString, EmptyString)
  | String c s' =>
      if is_newline c then (String c EmptyString, s')
      else let (l, r) := readline s' in (String c l, r)
  end.

(** [for line in fin]: the remaining lines, each with its newline. *)
Fixpoint file_lines (s : string) : list string :=
  match s with
  | EmptyString => []
  | String c s' =>
      if is_newline c then String c EmptyString :: file_lines s'
      else match file_lines s' with
           | [] => [String c EmptyString]
           | l :: ls => String c l :: ls
           end
  end.

(** [s.lower()] on a byte string: only A-Z change. *)
Definition lower_char (c : ascii) : ascii :=
  let n := Ascii.nat_of_ascii c in
  if ((65 <=? n)%nat && (n <=? 90)%nat) then Ascii.ascii_of_nat (n + 32) else c.

Fixpoint lower (s : string) : string :=
  match s with
  | EmptyString => EmptyString
  | String c s' => String (lower_char c) (lower s')
  end.

(** [s.count(pat)] for a non-empty [pat]: occurrences counted from left to
    right without overlap. [skip] is the number of characters still
    covered by the occurrence counted last. *)
Fixpoint count_from (pat : string) (skip : nat) (s : string) : nat :=
  match s with
  | EmptyString => 0%nat
  | String c s' =>
      match skip with
      | S k => count_from pat k s'
      | O => if String.prefix pat s
             then S (count_from pat (String.length pat - 1) s')
             else count_from pat 0 s'
      end
  end.

Definition count (s pat : string) : nat := count_from pat 0 s.

(** [s[n:]] *)
Fixpoint drop (n : nat) (s : string) : string :=
  match n, s with
  | S n', String _ s' => drop n' s'
  | _, _ => s
  end.

(** The number of positions of [s] at which [pat] occurs. *)
Fixpoint occurrences (pat s : string) : nat :=
  match s with
  | EmptyString => 0%nat
  | String c s' =>
      ((if String.prefix pat s then 1 else 0) + occurrences pat s')%nat
  end.

(** The number of commas of a string. *)
Fixpoint commas (s : string) : nat :=
  match s with
  | EmptyString => 0%nat
  | String c s' => ((if Ascii.eqb c comma then 1 else 0) + commas s')%nat
  end.

(** [','.join(fields)] *)
Fixpoint join_comma (fields : list string) : string :=
  match fields with
  | [] => EmptyString
  | [f] => f
  | f :: rest => f +:+ String comma (join_comma rest)
  end.

(** Whether a string holds white space only. *)
Fixpoint all_space (s : string) : bool :=
  match s with
  | EmptyString => true
  | String c s' => isspace c && all_space s'
  end.

(** The strings of a list, one after the other. *)
Fixpoint concat (l : list string) : string :=
  match l with
  | [] => EmptyString
  | s :: rest => s +:+ concat rest
  end.

(** Whether a string holds no newline. *)
Fixpoint no_newline (s : string) : bool :=
  match s with
  | EmptyString => true
  | String c s' => negb (is_newline c) && no_newline s'
  end.

End PyStr.

(** ** Values, messages and effects *)

(** What a Python function hands back: [None] when it falls off its end. *)
Inductive pyval :=
| PyNone
| PyInt (z : Z).

(** An argument of the [%] string formatting. *)
Inductive pyarg :=
| AInt (z : Z)
| AStr (s : string)
| AFloat (q : Q).

(** [fmt % args], kept unrendered. *)
Record msg := Msg { msg_fmt : string; msg_args : list pyarg }.

Definition pathname := list string.

Inductive exn := TypeError.

Inductive result (A : Type) :=
| Ret (a : A)
| Exit (code : Z)
| Raise (e : exn).
Arguments Ret {A} a.
Arguments Exit {A} code.
Arguments Raise {A} e.

(** A file's size as [os.path.getsize] gives it, or the [OSError] text. *)
Inductive fsize :=
| Size (n : N)
| SizeError (err : string).

(** A directory: its non-directory entries and its sub-directories, in the
  order of [os.listdir]. *)
#[local] Unset Elimination Schemes.
Inductive dir :=
| Dir (files : list (string * fsize)) (subdirs : list (string * dir)).
#[local] Set Elimination Schemes.

(** ** Stand-ins for the collaborators, used in the concrete examples *)

Module Sample.

Definition nl : string := String PyStr.newline EmptyString.

(** A key derivation: the key is the password followed by the salt, the
    verifier is the password after the letter v. *)
Definition key_derivation (pwd salt : string) : string * string * string :=
  (pwd +:+ salt, "v" +:+ pwd, salt).

(** [re.compile] rejects an opening parenthesis that is never closed;
    the stand-in rejects that pattern only. *)
Definition re_compiles (regex : string) : bool := negb (String.eqb regex "(").

Definition hexdigit (c : ascii) : bool :=
  let n := Ascii.nat_of_ascii c in
  (((48 <=? n) && (n <=? 57)) || ((97 <=? n) && (n <=? 102))
   || ((65 <=? n) && (n <=? 70)))%nat.

Fixpoint all_hex (s : string) : bool :=
  match s with
  | EmptyString => true
  | String c s' => hexdigit c && all_hex s'
  end.

(** [int(s, 16)] returns on a non-empty string of hexadecimal digits and
    raises on a string with a character that is none (sign, prefix and
    blanks apart, which the examples do not use). *)
Definition int16_parses (s : string) : bool :=
  negb (String.eqb s "") && all_hex s.

Definition HASH_BYTES : nat := 1.
Definition SKIP : list string := [".git"; ".svn"].
Definition ENCRYPTED : list string := ["gpg"].

Definition infilename_search (name : string) : option string :=
  if String.eqb name "id_rsa" then Some "id_rsa" else None.

Definition type_file (p : pathname) : string * bool :=
  match last p with
  | Some "id_rsa" => ("text", true)
  | Some "secrets.gpg" => ("gpg", true)
  | Some "config" => ("text", true)
  | _ => ("unknown", false)
  end.

Definition abspath (p : pathname) : pathname := "/" :: p.

(** The three files of the end-to-end scenario, and a [.git] directory
    two levels down. *)
Definition tree : dir :=
  Dir [("readme.txt", Size 10); ("id_rsa", Size 1700); ("secrets.gpg", Size 42)]
      [("src", Dir [] [(".git", Dir [("config", Size 5)]
                                    [("hooks", Dir [("config", Size 7)] [])])])].

(** One file of 1024 TiB. *)
Definition huge : dir := Dir [("image", Size (2 ^ 50))] [].

(** Hash-list artifacts for the password [pw]. *)
Definition good : string :=
  "re" +:+ nl +:+ "salt,vpw" +:+ nl +:+ "ab" +:+ nl +:+ " cd " +:+ nl +:+ "ab" +:+ nl.
Definition bad_regex : string := "(" +:+ nl +:+ "salt,vpw" +:+ nl.
Definition bad_verifier : string :=
  "re" +:+ nl +:+ "salt,nope" +:+ nl +:+ "ab" +:+ nl.
Definition bad_both : string :=
  "(" +:+ nl +:+ "salt,nope" +:+ nl +:+ "zz" +:+ nl +:+ "abc" +:+ nl +:+ "ab" +:+ nl.
Definition no_comma : string := "re" +:+ nl +:+ "salt" +:+ nl +:+ "ab" +:+ nl.
Definition blank_line : string :=
  "re" +:+ nl +:+ "salt,vpw" +:+ nl +:+ "ab" +:+ nl +:+ " " +:+ nl.
Definition one_line : string := "re" +:+ nl.
Definition reordered : string :=
  "re" +:+ nl +:+ "salt,vpw" +:+ nl +:+ "ab" +:+ nl +:+ "ab" +:+ nl +:+ "cd" +:+ nl.

(** A tree with a file whose size cannot be read. *)
Definition unreadable : dir :=
  Dir [("a", Size 2048); ("gone", SizeError "No such file or directory");
       ("b", Size 1024)] [].

End Sample.

(** ** The program *)

Section Core.

(** The type of a derived key and of a file-type tag. *)
Context {key ftype : Type} `{EqDecision ftype}.

(** Constants of [blueflower.constants], [blueflower.utils.hashing] and the
    package, none of them in [core.py]. *)
Variable HASH_BYTES : nat.
Variable SKIP : list string.
Variable ENCRYPTED : list ftype.
Variable PROGRAM : string.
Variable version : string.

(** The collaborators of the core:
    - [key_derivation pwd salt] gives [(key, averifier, salt)];
    - [re_compiles regex] tells whether [re.compile(regex)] returns (rather
      than raising [re.error]);
    - [int16_parses s] tells whether [int(s, 16)] returns (rather than
      raising [ValueError]);
    - [infilename_search name] is [infilename.search(name)], the text of
      the match if there is one, where [infilename] is the compiled
      ['|'.join(INFILENAME)];
    - [type_file abspath] gives [(ftype, supported)];
    - [abspath] is [os.path.abspath]. *)
Variable key_derivation : string → string → key * string * string.
Variable re_compiles : string → bool.
Variable int16_parses : string → bool.
Variable infilename_search : string → option string.
Variable type_file : pathname → ftype * bool.
Variable abspath : pathname → pathname.

(** Calls that leave the process, in the order they are made. *)
Inductive effect :=
| Comment (m : msg)                          (* log_comment(m) *)
| Error (err : string) (afile : string)      (* log_error(err, afile) *)
| Secret (what : string) (p : pathname)      (* log_secret(what, p) *)
| Encrypted (t : ftype) (afile : string)     (* log_encrypted(t, afile) *)
| DoFile (t : ftype) (p : pathname)          (* do_file(t, p) *)
| Getpass (prompt : string)                  (* getpass.getpass(prompt) *)
| Stdout (s : string)                        (* sys.stdout.write(s) *)
| Print (m : msg).                           (* print m *)

(** [HASH_KEY] starts as the integer 0 and later holds a derived key. *)
Inductive key_slot :=
| IntKey (z : Z)
| DerivedKey (k : key).

(** The module globals and the trace of effects. *)
Record state := State {
  HASHES : gset string;
  HASH_KEY : key_slot;
  HASH_REGEX : string;
  effects : list effect
}.

(** The globals as the module defines them, before anything has run. *)
Definition initial : state :=
  {| HASHES := ∅; HASH_KEY := IntKey 0; HASH_REGEX := ""; effects := [] |}.

Definition emit (e : effect) (st : state) : state :=
  {| HASHES := HASHES st; HASH_KEY := HASH_KEY st;
     HASH_REGEX := HASH_REGEX st; effects := effects st ++ [e] |}.

(** A computation: it reads and writes the globals, appends effects, and
    returns, leaves the process or raises. *)
Definition M (A : Type) : Type := state → result A * state.

Definition ret {A} (a : A) : M A := λ st, (Ret a, st).

Definition bind {A B} (m : M A) (k : A → M B) : M B :=
  λ st, match m st with
        | (Ret a, st') => k a st'
        | (Exit c, st') => (Exit c, st')
        | (Raise e, st') => (Raise e, st')
        end.

Notation "'do' x <- m ; k" := (bind m (λ x, k))
  (at level 10, x name, m at level 100, k at level 200).
Notation "'do' ' p <- m ; k" := (bind m (λ x, match x with p => k end))
  (at level 10, p pattern, m at level 100, k at level 200).
Notation "m ;; k" := (bind m (λ _, k))
  (at level 100, k at level 200, right associativity).

Definition perform (e : effect) : M unit := λ st, (Ret tt, emit e st).

Definition log_comment (fmt : string) (args : list pyarg) : M unit :=
  perform (Comment (Msg fmt args)).

Definition sys_exit {A} (code : Z) : M A := λ st, (Exit code, st).

(** [bye()] *)
Definition bye {A} : M A :=
  perform (Print (Msg "thank you for using %s, please report bugs" [AStr PROGRAM])) ;;
  sys_exit 1.

(** *** get_hashes *)

(** The two reports a hash line can get, and whether it gets one. *)
Definition bad_length (ahash : string) : bool :=
  negb (String.length ahash =? 2 * HASH_BYTES)%nat.

Definition bad_hex (ahash : string) : bool := negb (int16_parses ahash).

Definition report_length (ahash : string) : effect :=
  Comment (Msg "invalid hash length (%d bytes): %s"
               [AInt (Z.of_nat (String.length ahash)); AStr ahash]).

Definition report_hex (ahash : string) : effect :=
  Comment (Msg "invalid hash value (should be hex string): %s" [AStr ahash]).

(** The body of [for line in fin], with the locals [fail] and [hashes]. *)
Definition hash_line (line : string) (fail : bool) (hashes : list string)
  : M (bool * list string) :=
  let ahash := PyStr.strip line in
  do fail <- (if bad_length ahash
              then perform (report_length ahash) ;; ret true
              else ret fail) ;
  do fail <- (if bad_hex ahash
              then perform (report_hex ahash) ;; ret true
              else ret fail) ;
  if negb fail then ret (fail, hashes ++ [ahash]) else ret (fail, hashes).

Fixpoint hash_loop (lines : list string) (fail : bool) (hashes : list string)
  : M (bool * list string) :=
  match lines with
  | [] => ret (fail, hashes)
  | line :: rest =>
      do '(fail', hashes') <- hash_line line fail hashes ;
      hash_loop rest fail' hashes'
  end.

Definition set_key_regex (k : key) (regex : string) : M unit :=
  λ st, (Ret tt, {| HASHES := HASHES st; HASH_KEY := DerivedKey k;
                    HASH_REGEX := regex; effects := effects st |}).

Definition set_hashes (h : gset string) : M unit :=
  λ st, (Ret tt, {| HASHES := h; HASH_KEY := HASH_KEY st;
                    HASH_REGEX := HASH_REGEX st; effects := effects st |}).

Definition get_state : M state := λ st, (Ret st, st).

(** Lines 55 to 90: from the key derivation to the end of the loop over
    the hash lines; the locals [fail] and [hashes] are handed back. *)
Definition validate (pwd regex salt verifier : string) (lines : list string)
  : M (bool * list string) :=
  let '(k, averifier, _) := key_derivation pwd salt in
  do fail <- (if negb (String.eqb verifier averifier)
              then log_comment "verifier does not match (incorrect password?)" [] ;;
                   ret true
              else set_key_regex k regex ;; ret false) ;
  do fail <- (if re_compiles regex
              then ret fail
              else log_comment "invalid regex" [] ;; ret true) ;
  hash_loop lines fail [].

(** Lines 92 to 101. *)
Definition commit (fail : bool) (hashes : list string) : M unit :=
  (if fail
   then log_comment "hashes file failed to verify, aborting..." [] ;; bye
   else ret tt) ;;
  set_hashes (list_to_set hashes) ;;
  do st <- get_state ;
  log_comment "%d hashes read, %d uniques"
    [AInt (Z.of_nat (length hashes)); AInt (Z.of_nat (size (HASHES st)))] ;;
  log_comment "using regex %s" [AStr (HASH_REGEX st)] ;;
  log_comment "hashes file successfully verified" [].

(** [get_hashes(hashesfile)], with the password that [getpass] reads and
    the text that [open(hashesfile)] gives. *)
Definition get_hashes (hashesfile pwd content : string) : M unit :=
  log_comment "verifying hashes file %s..." [AStr hashesfile] ;;
  perform (Getpass "password: ") ;;
  let (line1, fin1) := PyStr.readline content in
  let regex := PyStr.rstrip_nl line1 in
  let (line2, fin2) := PyStr.readline fin1 in
  match PyStr.split_comma (PyStr.rstrip_nl line2) with
  | [salt; verifier] =>
      do '(fail, hashes) <- validate pwd regex salt verifier (PyStr.file_lines fin2) ;
      commit fail hashes
  | _ =>
      log_comment "failed to extract verifier and salt" [] ;; bye
  end.

(** *** The directory walk shared by init and scan *)

Definition name_in {A} (name : string) (dirs : list (string * A)) : bool :=
  existsb (λ nd, String.eqb nd.1 name) dirs.

(** [dirs.remove(skip)]: the first entry of that name goes. *)
Fixpoint remove_first {A} (skip : string) (dirs : list (string * A))
  : list (string * A) :=
  match dirs with
  | [] => []
  | nd :: rest =>
      if String.eqb nd.1 skip then rest else nd :: remove_first skip rest
  end.

(** [for skip in SKIP: if skip in dirs: dirs.remove(skip)] *)
Definition skip_dirs {A} (dirs : list (string * A)) : list (string * A) :=
  fold_left (λ ds skip, if name_in skip ds then remove_first skip ds else ds)
            SKIP dirs.

(** [os.walk(path)], top down, with the pruning that both loops do on
    [dirs] before the walk goes on: the [(root, files)] of every directory
    that is visited. Each sub-directory is paired with its own walk and
    the pairs are pruned by name, so the walk of a pruned sub-directory
    is dropped whole. *)
Fixpoint walk (root : pathname) (d : dir)
  : list (pathname * list (string * fsize)) :=
  match d with
  | Dir files subdirs =>
      (root, files) ::
      concat (map snd (skip_dirs
               (map (λ nd : string * dir, (nd.1, walk (root ++ [nd.1]) nd.2))
                    subdirs)))
  end.

(** A loop over a list with the locals [s]. *)
Fixpoint for_each {A S} (l : list A) (body : A → S → M S) (s : S) : M S :=
  match l with
  | [] => ret s
  | a :: rest => do s' <- body a s ; for_each rest body s'
  end.

(** *** init *)

Definition Qltb (x y : Q) : bool := negb (Qle_bool y x).

Definition units : list string := ["bytes"; "KiB"; "MiB"; "GiB"; "TiB"].

(** The body of [for afile in files] of [init]; the locals are [count]
    and [total_size]. *)
Definition size_file (root : pathname) (afile : string * fsize) (acc : Z * N)
  : M (Z * N) :=
  let '(count, total_size) := acc in
  let count := count + 1 in
  match afile.2 with
  | Size n => ret (count, (total_size + n)%N)
  | SizeError err => perform (Error err afile.1) ;; ret (count, total_size)
  end.

(** The loop over the units. [readable] starts as the integer
    [total_size] and is a float from the first division on; dividing by
    1024.0 only changes the exponent of a binary float, and the conversion
    of [total_size] to a float is monotone and exact below 2^53, so the
    comparisons with 1024 come out as on the exact quotients used here. *)
Fixpoint human (count : Z) (readable : Q) (us : list string) : M pyval :=
  match us with
  | [] => ret PyNone
  | unit :: rest =>
      if Qltb readable (inject_Z 1024)
      then log_comment "%d files, %3.1f %s" [AInt count; AFloat readable; AStr unit] ;;
           ret (PyInt count)
      else human count (readable / inject_Z 1024)%Q rest
  end.

Definition init_loop (path : string) (d : dir) : M (Z * N) :=
  for_each (walk [path] d)
           (λ rf acc, for_each rf.2 (size_file rf.1) acc)
           (0, 0%N).

Definition init (path : string) (d : dir) : M pyval :=
  log_comment "initialization..." [] ;;
  do '(count, total_size) <- init_loop path d ;
  human count (inject_Z (Z.of_N total_size)) units.

(** *** scan *)

Fixpoint times (s : string) (n : nat) : string :=
  match n with
  | O => ""
  | S n' => s +:+ times s n'
  end.

Definition backspace : string := String (Ascii.ascii_of_nat 8) EmptyString.

(** The body of [for afile in files] of [scan]; the locals are [scanned]
    and [bar_count]. *)
Definition scan_file (bar_blocksize : Z) (root : pathname)
    (afile : string * fsize) (acc : Z * Z) : M (Z * Z) :=
  let '(scanned, bar_count) := acc in
  let p := abspath (root ++ [afile.1]) in
  match infilename_search (PyStr.lower afile.1) with
  | Some found => perform (Secret found p)
  | None => ret tt
  end ;;
  let (t, supported) := type_file p in
  if supported then
    if bool_decide (t ∈ ENCRYPTED)
    then perform (Encrypted t afile.1) ;; ret (scanned, bar_count)
    else perform (DoFile t p) ;;
         let scanned := scanned + 1 in
         let bar_count := bar_count + 1 in
         if bar_blocksize <=? bar_count
         then perform (Stdout "=") ;; ret (scanned, 0)
         else ret (scanned, bar_count)
  else ret (scanned, bar_count).

Definition scan_loop (bar_blocksize : Z) (path : string) (d : dir) : M (Z * Z) :=
  for_each (walk [path] d)
           (λ rf acc, for_each rf.2 (scan_file bar_blocksize rf.1) acc)
           (0, 0).

Definition raise {A} (e : exn) : M A := λ st, (Raise e, st).

(** [count/bar_width]: a [TypeError] when [count] is [None]. *)
Definition int_div (count : pyval) (n : Z) : M Z :=
  match count with
  | PyInt c => ret (c / n)
  | PyNone => raise TypeError
  end.

Definition scan (path : string) (count : pyval) (d : dir) : M pyval :=
  log_comment "scanning files..." [] ;;
  let bar_width := 32 in
  perform (Stdout ("[" +:+ times " " (Z.to_nat (bar_width + 1)) +:+ "]")) ;;
  perform (Stdout (times backspace (Z.to_nat (bar_width + 2)))) ;;
  do bar_blocksize <- int_div count bar_width ;
  do '(scanned, _) <- scan_loop bar_blocksize path d ;
  perform (Stdout (String PyStr.newline EmptyString)) ;;
  log_comment "%d files supported have been processed" [AInt scanned] ;;
  ret (PyInt scanned).

(** *** count_secrets, usage, banner *)

Definition count_secrets (logs : string) : M pyval :=
  let secrets := PyStr.count logs "SECRET," in
  log_comment ("%d files or strings flagged as " +:+ PyStr.dquote +:+ "secret" +:+ PyStr.dquote)
              [AInt (Z.of_nat secrets)] ;;
  ret PyNone.

Definition usage : M unit :=
  perform (Print (Msg "usage: %s directory [hashes]" [AStr PROGRAM])).

Definition flower : string := "
        .--'|}         _   ,
       /    /}}  -====;o`\/ }
     .=\.--'`\}        \-'\-'----.
    //` '---./`         \ |-..-'`
    ||  /|              /\/\
     \\| |              `--`
   |\_\\/
   \__/\\
        \\   %s - %s
         \|
    ".

Definition banner : M unit :=
  perform (Print (Msg flower [AStr PROGRAM; AStr version])).

(** *** main *)

(** What the run finds outside the process: which paths exist, the tree
    under a directory, the text of a file, the password typed at the
    prompt, the time stamp, and the text that the logging sinks and the
    content scanner have written to the log file once a trace of effects
    has happened. [w_open] is the text that [open] and the reads give for
    a file that can be read; a hash list that exists and cannot be read
    (a directory, say), for which [open] raises [IOError], is not in a
    world, and no property below tells what the run does on one. *)
Record world := World {
  w_exists : string → bool;
  w_tree : string → dir;
  w_open : string → string;
  w_getpass : string;
  w_timestamp : string;
  w_log_text : list effect → string
}.

(** Lines 240 to 255: the run once the arguments are accepted. The
    handler that [signal.signal] registers runs only on an interrupt and
    is left out. *)
Definition run (w : world) (path hashesfile : string) : M pyval :=
  let logfile := PROGRAM +:+ "-" +:+ w_timestamp w in
  banner ;;
  log_comment "writing to %s" [AStr logfile] ;;
  (if negb (String.eqb hashesfile "")
   then get_hashes hashesfile (w_getpass w) (w_open w hashesfile)
   else ret tt) ;;
  do count <- init path (w_tree w path) ;
  scan path count (w_tree w path) ;;
  do st <- get_state ;
  count_secrets (w_log_text w (effects st)) ;;
  bye.

Definition main (w : world) (args : list string) : M pyval :=
  match args with
  | [] => usage ;; ret (PyInt 1)
  | path :: more =>
      if negb (w_exists w path)
      then perform (Print (Msg "%s does not exist" [AStr path])) ;;
           usage ;; ret (PyInt 1)
      else
        match more with
        | [] => run w path ""
        | hashesfile :: _ =>
            if negb (w_exists w hashesfile)
            then perform (Print (Msg "%s does not exist" [AStr hashesfile])) ;;
                 usage ;; ret (PyInt 1)
            else run w path hashesfile
        end
  end.

(** ** Notions used to state the properties *)

Definition add_effects (st : state) (es : list effect) : state :=
  {| HASHES := HASHES st; HASH_KEY := HASH_KEY st;
     HASH_REGEX := HASH_REGEX st; effects := effects st ++ es |}.

Definition with_key_regex (k : key) (regex : string) (st : state) : state :=
  {| HASHES := HASHES st; HASH_KEY := DerivedKey k;
     HASH_REGEX := regex; effects := effects st |}.

Definition with_hashes (h : gset string) (st : state) : state :=
  {| HASHES := h; HASH_KEY := HASH_KEY st;
     HASH_REGEX := HASH_REGEX st; effects := effects st |}.

(** The parts of a hash-list artifact, as [get_hashes] reads them. *)
Definition artifact_regex (content : string) : string :=
  PyStr.rstrip_nl (PyStr.readline content).1.

Definition artifact_fields (content : string) : list string :=
  PyStr.split_comma (PyStr.rstrip_nl (PyStr.readline (PyStr.readline content).2).1).

Definition artifact_lines (content : string) : list string :=
  PyStr.file_lines (PyStr.readline (PyStr.readline content).2).2.

Definition derived_key (pwd salt : string) : key := (key_derivation pwd salt).1.1.

Definition mismatch (pwd salt verifier : string) : bool :=
  negb (String.eqb verifier (key_derivation pwd salt).1.2).

(** A hash line is malformed when its stripped text has the wrong length
    or is no hexadecimal number. *)
Definition malformed (line : string) : bool :=
  bad_length (PyStr.strip line) || bad_hex (PyStr.strip line).

Definition line_reports (line : string) : list effect :=
  (if bad_length (PyStr.strip line) then [report_length (PyStr.strip line)] else [])
  ++ (if bad_hex (PyStr.strip line) then [report_hex (PyStr.strip line)] else []).

(** The lines before the first malformed one. *)
Fixpoint valid_prefix (lines : list string) : list string :=
  match lines with
  | [] => []
  | line :: rest => if malformed line then [] else line :: valid_prefix rest
  end.

(** The value of the local [hashes] after the loop, when [fail] had the
    value [fail0] before it. *)
Definition kept (fail0 : bool) (lines : list string) : list string :=
  if fail0 then [] else map PyStr.strip (valid_prefix lines).

Definition verifier_report (pwd salt verifier : string) : list effect :=
  if mismatch pwd salt verifier
  then [Comment (Msg "verifier does not match (incorrect password?)" [])]
  else [].

Definition regex_report (regex : string) : list effect :=
  if re_compiles regex then [] else [Comment (Msg "invalid regex" [])].

Definition opening (hashesfile : string) : list effect :=
  [Comment (Msg "verifying hashes file %s..." [AStr hashesfile]);
   Getpass "password: "].

Definition farewell : effect :=
  Print (Msg "thank you for using %s, please report bugs" [AStr PROGRAM]).

Definition closing_failure : list effect :=
  [Comment (Msg "hashes file failed to verify, aborting..." []); farewell].

Definition closing_success (hashes : list string) (regex : string) : list effect :=
  [Comment (Msg "%d hashes read, %d uniques"
                [AInt (Z.of_nat (length hashes));
                 AInt (Z.of_nat (size (list_to_set hashes : gset string)))]);
   Comment (Msg "using regex %s" [AStr regex]);
   Comment (Msg "hashes file successfully verified" [])].

(** What the checks of the verifier, of the regex and of the hash lines
    report, in this order. *)
Definition reports (pwd regex salt verifier : string) (lines : list string)
  : list effect :=
  verifier_report pwd salt verifier ++ regex_report regex
  ++ flat_map line_reports lines.

(** Whether any of the checks failed. *)
Definition failed (pwd regex salt verifier : string) (lines : list string) : bool :=
  mismatch pwd salt verifier || negb (re_compiles regex) || existsb malformed lines.

(** The globals once the verifier has been compared. *)
Definition after_verifier (pwd regex salt verifier : string) (st : state) : state :=
  if mismatch pwd salt verifier then st
  else with_key_regex (derived_key pwd salt) regex st.

(** Sibling directories have distinct names, at every level. *)
Fixpoint wf_dir (d : dir) : bool :=
  match d with
  | Dir _ subdirs =>
      bool_decide (NoDup (map fst subdirs))
      && forallb (λ nd : string * dir, wf_dir nd.2) subdirs
  end.

(** The tree without its directories of an excluded name. *)
Fixpoint erase (d : dir) : dir :=
  match d with
  | Dir files subdirs =>
      Dir files
          (concat (map (λ nd : string * dir,
                          if bool_decide (nd.1 ∈ SKIP) then []
                          else [(nd.1, erase nd.2)])
                       subdirs))
  end.

(** The files of the directory at the relative path [p], if there is one. *)
Fixpoint files_at (d : dir) (p : list string) : list (string * fsize) :=
  match p, d with
  | [], Dir files _ => files
  | name :: p', Dir _ subdirs =>
      (fix find (l : list (string * dir)) :=
         match l with
         | [] => []
         | nd :: rest =>
             if String.eqb nd.1 name then files_at nd.2 p' else find rest
         end) subdirs
  end.

(** The files on which the body of either loop runs, in order. *)
Definition enumerated (path : string) (d : dir) : list (pathname * (string * fsize)) :=
  flat_map (λ rf, map (pair rf.1) rf.2) (walk [path] d).

Definition known_size (rf : pathname * (string * fsize)) : N :=
  match rf.2.2 with
  | Size n => n
  | SizeError _ => 0%N
  end.

Definition total_bytes (l : list (pathname * (string * fsize))) : N :=
  foldr (λ rf acc, (known_size rf + acc)%N) 0%N l.

Definition dofile_calls (es : list effect) : list (ftype * pathname) :=
  omap (λ e, match e with DoFile t p => Some (t, p) | _ => None end) es.

(** The call of the content scanner that a file gets, if it gets one. *)
Definition scanner_call (rf : pathname * (string * fsize))
  : option (ftype * pathname) :=
  let p := abspath (rf.1 ++ [rf.2.1]) in
  let (t, supported) := type_file p in
  if supported && negb (bool_decide (t ∈ ENCRYPTED)) then Some (t, p) else None.

(** The encrypted notice that a file gets, if it gets one. *)
Definition encrypted_notice (rf : pathname * (string * fsize))
  : option (ftype * string) :=
  let (t, supported) := type_file (abspath (rf.1 ++ [rf.2.1])) in
  if supported && bool_decide (t ∈ ENCRYPTED) then Some (t, rf.2.1) else None.

Definition encrypted_notices (es : list effect) : list (ftype * string) :=
  omap (λ e, match e with Encrypted t a => Some (t, a) | _ => None end) es.

(** The errors that the sizing pass logs for the files of a directory. *)
Definition size_errors (files : list (string * fsize)) : list effect :=
  flat_map (λ af : string * fsize,
              match af.2 with
              | Size _ => []
              | SizeError err => [Error err af.1]
              end) files.

(** The second line of the artifact, without its newline. *)
Definition artifact_second (content : string) : string :=
  PyStr.rstrip_nl (PyStr.readline (PyStr.readline content).2).1.

(** The filename finding that a file gets, if it gets one. *)
Definition filename_finding (rf : pathname * (string * fsize))
  : option (string * pathname) :=
  match infilename_search (PyStr.lower rf.2.1) with
  | Some found => Some (found, abspath (rf.1 ++ [rf.2.1]))
  | None => None
  end.

Definition secret_findings (es : list effect) : list (string * pathname) :=
  omap (λ e, match e with Secret what p => Some (what, p) | _ => None end) es.

(** The cells that the progress bar has been advanced by. *)
Definition bar_marks (es : list effect) : list unit :=
  omap (λ e, match e with
             | Stdout s => if String.eqb s "=" then Some tt else None
             | _ => None
             end) es.

(** The errors that the sizing pass logs, file by file. *)
Definition size_error (rf : pathname * (string * fsize)) : option effect :=
  match rf.2.2 with
  | Size _ => None
  | SizeError err => Some (Error err rf.2.1)
  end.

(** The comment with which [init] ends when it hands back the count. *)
Definition size_comment (count : Z) (readable : Q) (unit : string) : effect :=
  Comment (Msg "%d files, %3.1f %s" [AInt count; AFloat readable; AStr unit]).

(** [readable] after [k] divisions by 1024.0. *)
Definition scaled (total : N) (k : nat) : Q :=
  Nat.iter k (λ q, (q / inject_Z 1024)%Q) (inject_Z (Z.of_N total)).

(** A file that the classifier reports as not supported. *)
Definition unsupported (rf : pathname * (string * fsize)) : bool :=
  negb (type_file (abspath (rf.1 ++ [rf.2.1]))).2.

(** What the dispatch loop has done once its body has run on [files],
    with the block size [b] and the local [bar_count] going from [bc] to
    [bc']: the calls of the scanner, the encrypted notices and the
    filename findings are those of the files, in order, and the progress
    bar has got one cell for each full block of processed files. *)
Definition scan_trace (files : list (pathname * (string * fsize)))
    (b bc bc' : Z) (es : list effect) : Prop :=
  dofile_calls es = omap scanner_call files
  ∧ encrypted_notices es = omap encrypted_notice files
  ∧ secret_findings es = omap filename_finding files
  ∧ 0 ≤ bc' < Z.max 1 b
  ∧ bc + Z.of_nat (length (omap scanner_call files))
    = Z.of_nat (length (bar_marks es)) * Z.max 1 b + bc'.

(** [signal_handler], the handler of SIGINT. *)
Definition signal_handler {A} : M A :=
  perform (Stdout (String PyStr.newline EmptyString)) ;;
  log_comment "SIGINT received, quitting" [] ;;
  bye.

(** Lines 252 to 255: what [run] does once the hash list is dealt with. *)
Definition finish (w : world) (path : string) : M pyval :=
  do count <- init path (w_tree w path) ;
  scan path count (w_tree w path) ;;
  do st <- get_state ;
  count_secrets (w_log_text w (effects st)) ;;
  bye.

(** The state in which [run] calls [get_hashes]. *)
Definition started (w : world) (st : state) : state :=
  add_effects st
    [Print (Msg flower [AStr PROGRAM; AStr version]);
     Comment (Msg "writing to %s" [AStr (PROGRAM +:+ "-" +:+ w_timestamp w)])].

(** What [scan] does with a file once its type is known: it calls the
    content scanner, or logs the encrypted notice, or does neither. *)
Definition disposition (rf : pathname * (string * fsize)) : option effect :=
  let p := abspath (rf.1 ++ [rf.2.1]) in
  let (t, supported) := type_file p in
  if supported
  then Some (if bool_decide (t ∈ ENCRYPTED) then Encrypted t rf.2.1 else DoFile t p)
  else None.

(** The calls of the content scanner and the encrypted notices of a
    trace, in the order in which they happened. *)
Definition classified (es : list effect) : list effect :=
  omap (λ e, match e with
             | DoFile _ _ | Encrypted _ _ => Some e
             | _ => None
             end) es.

(** The arguments with which [main] gets to the sizing pass: the path
    exists, and the hash list, when one is given, exists and validates. *)
Definition accepted (w : world) (args : list string) (st : state) : Prop :=
  match args with
  | [] => False
  | path :: more =>
      w_exists w path = true
      ∧ match more with
        | [] => True
        | hashesfile :: _ =>
            w_exists w hashesfile = true
            ∧ (hashesfile = ""
               ∨ (get_hashes hashesfile (w_getpass w) (w_open w hashesfile)
                    (started w st)).1 = Ret tt)
        end
  end.

(** A log file that holds one line for each filename finding, with the
    marker that [count_secrets] looks for. *)
Fixpoint marker_log (es : list effect) : string :=
  match es with
  | [] => ""
  | Secret what _ :: rest =>
      "SECRET," +:+ what +:+ String PyStr.newline (marker_log rest)
  | _ :: rest => marker_log rest
  end.

(** The text of a hash list: the regex, the salt and the verifier, and
    one hash on each line. *)
Definition make_artifact (regex salt verifier : string) (hashes : list string)
  : string :=
  regex
  +:+ String PyStr.newline
        (salt
         +:+ String PyStr.comma
               (verifier
                +:+ String PyStr.newline
                      (PyStr.concat
                         (map (λ h, h +:+ String PyStr.newline EmptyString)
                              hashes)))).

(** ** Properties *)

(** *** The trace of effects *)

Lemma add_effects_nil st : add_effects st [] = st.
Proof. destruct st; unfold add_effects; simpl. by rewrite app_nil_r. Qed.

Lemma add_effects_app st es1 es2 :
  add_effects (add_effects st es1) es2 = add_effects st (es1 ++ es2).
Proof. unfold add_effects; simpl. by rewrite app_assoc. Qed.

Lemma emit_add e st : emit e st = add_effects st [e].
Proof. reflexivity. Qed.

Lemma perform_run e st : perform e st = (Ret tt, add_effects st [e]).
Proof. reflexivity. Qed.

Lemma log_comment_run fmt args st :
  log_comment fmt args st = (Ret tt, add_effects st [Comment (Msg fmt args)]).
Proof. reflexivity. Qed.

Lemma bye_run {A} st : @bye A st = (Exit 1, add_effects st [farewell]).
Proof. reflexivity. Qed.

Lemma bind_ret {A B} (m : M A) (k : A → M B) st a st' :
  m st = (Ret a, st') → bind m k st = k a st'.
Proof. unfold bind. by intros ->. Qed.

(** *** The loop over the hash lines *)

Lemma hash_line_run line fail hashes st :
  hash_line line fail hashes st =
  (Ret (fail || malformed line,
        if fail || malformed line then hashes else hashes ++ [PyStr.strip line]),
   add_effects st (line_reports line)).
Proof.
  unfold hash_line, malformed, line_reports.
  unfold bind, perform, ret.
  destruct (bad_length (PyStr.strip line)), (bad_hex (PyStr.strip line)), fail;
    simpl; rewrite ?emit_add, ?add_effects_app, ?add_effects_nil; reflexivity.
Qed.

Lemma kept_cons fail line rest :
  kept fail (line :: rest) =
  (if fail || malformed line then [] else [PyStr.strip line])
  ++ kept (fail || malformed line) rest.
Proof.
  unfold kept. destruct fail; simpl; [done |].
  by destruct (malformed line).
Qed.

Lemma hash_loop_run lines : ∀ fail hashes st,
  hash_loop lines fail hashes st =
  (Ret (fail || existsb malformed lines, hashes ++ kept fail lines),
   add_effects st (flat_map line_reports lines)).
Proof.
  induction lines as [| line rest IH]; intros fail hashes st.
  - cbn. rewrite orb_false_r, add_effects_nil.
    unfold kept. destruct fail; by rewrite app_nil_r.
  - cbn [hash_loop]. erewrite bind_ret by apply hash_line_run.
    cbv beta iota. rewrite IH, add_effects_app, kept_cons. cbn [existsb flat_map].
    rewrite orb_assoc. do 2 f_equal.
    destruct (fail || malformed line); [by rewrite app_nil_l |].
    by rewrite <- app_assoc.
Qed.

Lemma valid_prefix_all lines :
  existsb malformed lines = false → valid_prefix lines = lines.
Proof.
  induction lines as [| line rest IH]; simpl; [done |].
  intros [-> Hrest]%orb_false_elim. by rewrite IH.
Qed.

(** *** get_hashes, step by step *)

Lemma validate_run pwd regex salt verifier lines st :
  validate pwd regex salt verifier lines st =
  (Ret (failed pwd regex salt verifier lines,
        kept (mismatch pwd salt verifier || negb (re_compiles regex)) lines),
   add_effects (after_verifier pwd regex salt verifier st)
               (reports pwd regex salt verifier lines)).
Proof.
  unfold validate, failed, reports, after_verifier, verifier_report,
    regex_report, mismatch, derived_key.
  destruct (key_derivation pwd salt) as [[k averifier] salt'].
  unfold bind, ret, log_comment, perform, set_key_regex. simpl.
  destruct (String.eqb verifier averifier), (re_compiles regex); simpl;
    rewrite hash_loop_run, ?emit_add, ?add_effects_app; reflexivity.
Qed.

Lemma after_verifier_add pwd regex salt verifier st es :
  after_verifier pwd regex salt verifier (add_effects st es) =
  add_effects (after_verifier pwd regex salt verifier st) es.
Proof. unfold after_verifier. by destruct (mismatch pwd salt verifier). Qed.

Lemma effects_after_verifier pwd regex salt verifier st :
  effects (after_verifier pwd regex salt verifier st) = effects st.
Proof. unfold after_verifier. by destruct (mismatch pwd salt verifier). Qed.

Lemma commit_failure hashes st :
  commit true hashes st = (Exit 1, add_effects st closing_failure).
Proof.
  unfold commit, bind. rewrite log_comment_run, bye_run, add_effects_app.
  reflexivity.
Qed.

Lemma commit_success hashes st :
  commit false hashes st =
  (Ret tt, add_effects (with_hashes (list_to_set hashes) st)
                       (closing_success hashes (HASH_REGEX st))).
Proof.
  unfold commit, bind, ret, log_comment, perform, set_hashes, get_state. simpl.
  unfold emit, add_effects, with_hashes. simpl. by rewrite <- !app_assoc.
Qed.

Lemma get_hashes_parse_failure hashesfile pwd content st :
  length (artifact_fields content) ≠ 2%nat →
  get_hashes hashesfile pwd content st =
  (Exit 1, add_effects st
     (opening hashesfile
      ++ [Comment (Msg "failed to extract verifier and salt" []); farewell])).
Proof.
  unfold artifact_fields, get_hashes.
  destruct (PyStr.readline content) as [line1 fin1]. cbn [fst snd].
  destruct (PyStr.readline fin1) as [line2 fin2]. cbn [fst snd]. intros Hlen.
  unfold bind at 1. rewrite log_comment_run.
  unfold bind at 1. rewrite perform_run, add_effects_app.
  destruct (PyStr.split_comma (PyStr.rstrip_nl line2)) as [| salt [| verifier [| x l]]];
    simpl in Hlen; try congruence;
    unfold bind; rewrite log_comment_run, bye_run, !add_effects_app;
    reflexivity.
Qed.

Lemma get_hashes_split hashesfile pwd content st salt verifier :
  artifact_fields content = [salt; verifier] →
  let regex := artifact_regex content in
  let lines := artifact_lines content in
  let st1 := after_verifier pwd regex salt verifier st in
  let es := opening hashesfile ++ reports pwd regex salt verifier lines in
  get_hashes hashesfile pwd content st =
  if failed pwd regex salt verifier lines
  then (Exit 1, add_effects st1 (es ++ closing_failure))
  else (Ret tt,
        add_effects (with_hashes (list_to_set (map PyStr.strip lines)) st1)
                    (es ++ closing_success (map PyStr.strip lines) regex)).
Proof.
  unfold artifact_fields, artifact_regex, artifact_lines, get_hashes.
  destruct (PyStr.readline content) as [line1 fin1]. cbn [fst snd].
  destruct (PyStr.readline fin1) as [line2 fin2]. cbn [fst snd]. intros ->.
  cbv zeta.
  unfold bind at 1. rewrite log_comment_run.
  unfold bind at 1. rewrite perform_run, add_effects_app.
  unfold bind at 1. rewrite validate_run, after_verifier_add, add_effects_app.
  destruct (failed _ _ _ _ _) eqn:Hfail.
  - by rewrite commit_failure, add_effects_app, <- !app_assoc.
  - unfold failed in Hfail.
    apply orb_false_elim in Hfail as [[Hm Hre]%orb_false_elim Hlines].
    rewrite Hm, Hre. simpl. unfold kept. rewrite valid_prefix_all by done.
    rewrite commit_success. unfold after_verifier. rewrite Hm. simpl.
    unfold add_effects, with_hashes, with_key_regex. simpl.
    by rewrite <- !app_assoc.
Qed.

Lemma artifact_fields_cases content :
  length (artifact_fields content) ≠ 2%nat
  ∨ ∃ salt verifier, artifact_fields content = [salt; verifier].
Proof.
  destruct (artifact_fields content) as [| salt [| verifier [| x l]]];
    simpl; eauto.
Qed.

Lemma mismatch_true pwd salt verifier :
  mismatch pwd salt verifier = true ↔ verifier ≠ (key_derivation pwd salt).1.2.
Proof.
  unfold mismatch. rewrite negb_true_iff. apply String.eqb_neq.
Qed.

Lemma in_line_reports_length line lines :
  In line lines → bad_length (PyStr.strip line) = true →
  In (report_length (PyStr.strip line)) (flat_map line_reports lines).
Proof.
  intros Hin Hbad. apply in_flat_map. exists line. split; [done |].
  unfold line_reports. rewrite Hbad. by left.
Qed.

Lemma in_line_reports_hex line lines :
  In line lines → bad_hex (PyStr.strip line) = true →
  In (report_hex (PyStr.strip line)) (flat_map line_reports lines).
Proof.
  intros Hin Hbad. apply in_flat_map. exists line. split; [done |].
  unfold line_reports. rewrite Hbad. apply in_or_app. right. by left.
Qed.

Lemma existsb_malformed line lines :
  In line lines → malformed line = true → existsb malformed lines = true.
Proof. intros Hin Hbad. apply existsb_exists. eauto. Qed.

Lemma existsb_malformed_false lines :
  existsb malformed lines = false ↔ Forall (λ line, malformed line = false) lines.
Proof.
  induction lines as [| line rest IH]; simpl.
  - split; [constructor | done].
  - rewrite orb_false_iff, IH, Forall_cons. done.
Qed.

Lemma line_reports_nil lines :
  existsb malformed lines = false → flat_map line_reports lines = [].
Proof.
  induction lines as [| line rest IH]; simpl; [done |].
  intros [Hline Hrest]%orb_false_elim. rewrite IH by done.
  unfold malformed in Hline. apply orb_false_elim in Hline as [Hl Hh].
  unfold line_reports. by rewrite Hl, Hh.
Qed.

(** *** Sets of hashes *)

Lemma size_list_to_set_remove_dups (l : list string) :
  size (list_to_set l : gset string) = length (remove_dups l).
Proof.
  rewrite <- (size_list_to_set (C := gset string) (remove_dups l))
    by apply NoDup_remove_dups.
  f_equal. apply set_eq. intros x.
  by rewrite !elem_of_list_to_set, elem_of_remove_dups.
Qed.

Lemma remove_dups_length_le (l : list string) :
  (length (remove_dups l) ≤ length l)%nat.
Proof. induction l as [| x l IH]; simpl; [done |]. case_decide; simpl; lia. Qed.

Lemma remove_dups_length_lt (l : list string) :
  ¬ NoDup l → (length (remove_dups l) < length l)%nat.
Proof.
  induction l as [| x l IH]; intros Hdup.
  - destruct Hdup. constructor.
  - simpl. pose proof (remove_dups_length_le l). case_decide; simpl; [lia |].
    apply -> Nat.succ_lt_mono. apply IH. intros Hnd. apply Hdup.
    by constructor.
Qed.

(** *** The claims on get_hashes *)

(** C4: validation accumulates its failures. For every artifact whose
    second line splits, whose stored verifier differs from the computed
    one and whose regex does not compile, the log gets both reasons, then
    the reports of every hash line, then the abort notice, and only then
    the run is ended with status 1; every hash line of a wrong length and
    every hash line that is no hexadecimal number has its own report in
    it. Nothing is committed. *)
Theorem failures_accumulate hashesfile pwd content st salt verifier :
  artifact_fields content = [salt; verifier] →
  verifier ≠ (key_derivation pwd salt).1.2 →
  re_compiles (artifact_regex content) = false →
  let lines := artifact_lines content in
  get_hashes hashesfile pwd content st =
    (Exit 1,
     add_effects st
       (opening hashesfile
        ++ [Comment (Msg "verifier does not match (incorrect password?)" []);
            Comment (Msg "invalid regex" [])]
        ++ flat_map line_reports lines
        ++ closing_failure))
  ∧ (∀ line, In line lines → bad_length (PyStr.strip line) = true →
       In (report_length (PyStr.strip line)) (flat_map line_reports lines))
  ∧ (∀ line, In line lines → bad_hex (PyStr.strip line) = true →
       In (report_hex (PyStr.strip line)) (flat_map line_reports lines)).
Proof.
  intros Hfields Hver%mismatch_true Hre lines. split; [| split].
  - rewrite (get_hashes_split _ _ _ _ _ _ Hfields).
    unfold failed, after_verifier, reports, verifier_report, regex_report.
    fold lines. rewrite Hver, Hre. simpl. reflexivity.
  - intros line. apply in_line_reports_length.
  - intros line. apply in_line_reports_hex.
Qed.

(** C5: an artifact whose second line does not split into exactly two
    fields ends the run at once: the log gets the parse-failure notice
    and [bye] leaves with status 1; the outcome names no collaborator and
    no later line, and the globals are untouched. It is the only check
    that cuts the validation short: when the second line does split, the
    reports of the verifier, of the regex and of every hash line are all
    in the log, whichever of them failed. *)
Theorem parse_failure_aborts hashesfile pwd content st :
  (length (artifact_fields content) ≠ 2%nat →
   get_hashes hashesfile pwd content st =
     (Exit 1,
      add_effects st
        (opening hashesfile
         ++ [Comment (Msg "failed to extract verifier and salt" []); farewell])))
  ∧ (∀ salt verifier, artifact_fields content = [salt; verifier] →
     ∃ closing,
       effects (get_hashes hashesfile pwd content st).2 =
       effects st ++ opening hashesfile
       ++ reports pwd (artifact_regex content) salt verifier (artifact_lines content)
       ++ closing).
Proof.
  split.
  - apply get_hashes_parse_failure.
  - intros salt verifier Hfields.
    rewrite (get_hashes_split _ _ _ _ _ _ Hfields). cbv zeta.
    destruct (failed _ _ _ _ _); eexists; cbn [snd];
      unfold add_effects, with_hashes; cbn [effects];
      rewrite effects_after_verifier, <- !app_assoc; reflexivity.
Qed.

(** C2, as the code has it: a hash line that looks valid is buffered only
    while no failure has been recorded. When the verifier matched and the
    regex compiled, the buffer ends up with the stripped hash lines that
    come before the first malformed one; otherwise it ends up empty. *)
Theorem buffered_until_first_failure pwd regex salt verifier lines st :
  ∃ fail,
    (validate pwd regex salt verifier lines st).1 =
    Ret (fail,
         if mismatch pwd salt verifier || negb (re_compiles regex)
         then []
         else map PyStr.strip (valid_prefix lines)).
Proof. rewrite validate_run. by eexists. Qed.

(** C6: when the artifact validates, [HASHES] is the set of the stripped
    hash lines, its size is the number of distinct ones, which is at most
    the number of lines read and less when a hash occurs twice; the log
    tells both numbers, and it has no entry for a hash that occurs twice:
    after the opening it holds the three closing comments only. *)
Theorem uniqueness_accounting hashesfile pwd content st :
  (get_hashes hashesfile pwd content st).1 = Ret tt →
  let st' := (get_hashes hashesfile pwd content st).2 in
  let hashes := map PyStr.strip (artifact_lines content) in
  HASHES st' = list_to_set hashes
  ∧ size (HASHES st') = length (remove_dups hashes)
  ∧ (size (HASHES st') ≤ length hashes)%nat
  ∧ (¬ NoDup hashes → (size (HASHES st') < length hashes)%nat)
  ∧ effects st' =
    effects st ++ opening hashesfile
    ++ [Comment (Msg "%d hashes read, %d uniques"
                     [AInt (Z.of_nat (length hashes));
                      AInt (Z.of_nat (size (HASHES st')))]);
        Comment (Msg "using regex %s" [AStr (artifact_regex content)]);
        Comment (Msg "hashes file successfully verified" [])].
Proof.
  destruct (artifact_fields_cases content) as [Hlen | (salt & verifier & Hf)].
  { by rewrite get_hashes_parse_failure. }
  rewrite (get_hashes_split _ _ _ _ _ _ Hf). cbv zeta.
  destruct (failed _ _ _ _ _) eqn:Hfail; [done |]. intros _. cbn [fst snd].
  unfold add_effects, with_hashes. cbn [HASHES effects].
  rewrite size_list_to_set_remove_dups. repeat split.
  - apply remove_dups_length_le.
  - apply remove_dups_length_lt.
  - rewrite effects_after_verifier, <- size_list_to_set_remove_dups.
    unfold failed in Hfail.
    apply orb_false_elim in Hfail as [[Hm Hre]%orb_false_elim Hlines].
    unfold reports, verifier_report, regex_report.
    rewrite Hm, line_reports_nil by done.
    apply negb_false_iff in Hre. rewrite Hre. reflexivity.
Qed.

(** *** The directory walk *)

Lemma dir_induction (P : dir → Prop) :
  (∀ files subdirs, Forall (λ nd, P nd.2) subdirs → P (Dir files subdirs)) →
  ∀ d, P d.
Proof.
  intros Hstep. fix IH 1. intros [files subdirs]. apply Hstep.
  induction subdirs as [| nd rest IHrest]; constructor; [apply IH | apply IHrest].
Qed.

Lemma wf_dir_inv files subdirs :
  wf_dir (Dir files subdirs) = true →
  NoDup (map fst subdirs) ∧ Forall (λ nd, wf_dir nd.2 = true) subdirs.
Proof.
  simpl. intros [Hnd Hall]%andb_true_iff. split.
  - by apply bool_decide_eq_true in Hnd.
  - apply Forall_forall. intros nd Hin.
    rewrite forallb_forall in Hall. apply Hall. by apply list_elem_of_In.
Qed.

Lemma remove_first_absent {A} skip (l : list (string * A)) :
  skip ∉ map fst l → remove_first skip l = l.
Proof.
  induction l as [| nd l IH]; simpl; [done |]. intros Hnot.
  destruct (String.eqb nd.1 skip) eqn:E.
  - apply String.eqb_eq in E. destruct Hnot. subst. left.
  - f_equal. apply IH. intros Hin. apply Hnot. by right.
Qed.

Lemma remove_first_filter {A} skip (l : list (string * A)) :
  NoDup (map fst l) →
  remove_first skip l = filter (λ nd, nd.1 ≠ skip) l.
Proof.
  induction l as [| nd l IH]; simpl; [done |].
  intros [Hfresh Hnd]%NoDup_cons.
  destruct (String.eqb nd.1 skip) eqn:E.
  - apply String.eqb_eq in E. subst.
    rewrite filter_cons_False by (intros Hne; by apply Hne).
    rewrite <- IH by done. symmetry. by apply remove_first_absent.
  - apply String.eqb_neq in E. rewrite filter_cons_True by done.
    f_equal. by apply IH.
Qed.

Lemma NoDup_names_filter {A} (P : string * A → Prop) `{∀ x, Decision (P x)}
    (l : list (string * A)) :
  NoDup (map fst l) → NoDup (map fst (filter P l)).
Proof.
  induction l as [| nd l IH]; simpl; [done |].
  intros [Hfresh Hnd]%NoDup_cons. rewrite filter_cons.
  destruct (decide (P nd)); [| by apply IH]. simpl.
  apply NoDup_cons. split; [| by apply IH].
  intros Hin. apply Hfresh.
  apply list_elem_of_In, in_map_iff in Hin as (x & Hx & Hin).
  apply list_elem_of_In, in_map_iff. exists x. split; [done |].
  apply list_elem_of_In. apply list_elem_of_In in Hin.
  by apply list_elem_of_filter in Hin as [_ ?].
Qed.

Lemma skip_fold {A} (skips : list string) : ∀ l : list (string * A),
  NoDup (map fst l) →
  fold_left (λ ds skip, if name_in skip ds then remove_first skip ds else ds)
            skips l
  = filter (λ nd, nd.1 ∉ skips) l.
Proof.
  induction skips as [| skip skips IH]; intros l Hnd; simpl.
  - induction l as [| nd l IHl]; [done |].
    rewrite filter_cons_True by apply not_elem_of_nil.
    f_equal. apply IHl. by apply NoDup_cons in Hnd as [_ ?].
  - assert ((if name_in skip l then remove_first skip l else l)
            = filter (λ nd, nd.1 ≠ skip) l) as ->.
    { rewrite <- remove_first_filter by done.
      destruct (name_in skip l) eqn:E; [done |].
      symmetry. apply remove_first_absent.
      intros Hin. apply list_elem_of_In, in_map_iff in Hin as (nd & Hname & Hin).
      apply not_true_iff_false in E. apply E. unfold name_in.
      apply existsb_exists. exists nd. split; [done |]. by apply String.eqb_eq. }
    rewrite IH by by apply NoDup_names_filter.
    rewrite list_filter_filter. apply list_filter_iff.
    intros nd. rewrite not_elem_of_cons. split; intros [? ?]; by split.
Qed.

Lemma skip_dirs_filter {A} (l : list (string * A)) :
  NoDup (map fst l) → skip_dirs l = filter (λ nd, nd.1 ∉ SKIP) l.
Proof. apply skip_fold. Qed.

(** The walk of a well-formed tree, one level at a time. *)
Lemma walk_unfold root files subdirs :
  NoDup (map fst subdirs) →
  walk root (Dir files subdirs) =
  (root, files) ::
  flat_map (λ nd : string * dir,
              if bool_decide (nd.1 ∈ SKIP) then []
              else walk (root ++ [nd.1]) nd.2)
           subdirs.
Proof.
  intros Hnd. cbn [walk]. f_equal.
  rewrite skip_dirs_filter.
  2: { rewrite map_map. simpl. done. }
  clear Hnd. induction subdirs as [| nd rest IH]; [done |].
  cbn [map flat_map]. rewrite filter_cons. cbn [fst].
  destruct (decide (nd.1 ∉ SKIP)) as [Hout | Hin].
  - rewrite bool_decide_eq_false_2 by done. cbn [map concat snd]. by rewrite IH.
  - rewrite bool_decide_eq_true_2 by (by apply dec_stable). by rewrite IH.
Qed.

Lemma walk_roots d : ∀ root r files,
  wf_dir d = true → In (r, files) (walk root d) →
  ∃ q, r = root ++ q ∧ Forall (λ name, name ∉ SKIP) q.
Proof.
  induction d as [files subdirs IH] using dir_induction.
  intros root r fs [Hnd Hwf]%wf_dir_inv. rewrite walk_unfold by done.
  intros [Heq | Hin].
  - exists []. injection Heq as <- _. by rewrite app_nil_r.
  - apply in_flat_map in Hin as (nd & Hnd_in & Hin).
    destruct (bool_decide (nd.1 ∈ SKIP)) eqn:Hskip; [done |].
    apply bool_decide_eq_false in Hskip.
    rewrite Forall_forall in IH, Hwf. apply list_elem_of_In in Hnd_in.
    destruct (IH nd Hnd_in _ _ _ (Hwf nd Hnd_in) Hin) as (q & -> & Hq).
    exists (nd.1 :: q). split; [by rewrite <- app_assoc |]. by constructor.
Qed.

Lemma wf_erase d : wf_dir d = true → wf_dir (erase d) = true.
Proof.
  induction d as [files subdirs IH] using dir_induction.
  intros [Hnd Hwf]%wf_dir_inv. cbn [erase wf_dir].
  apply andb_true_iff. split.
  - apply bool_decide_eq_true.
    clear IH Hwf. induction subdirs as [| nd rest IHrest]; simpl; [constructor |].
    apply NoDup_cons in Hnd as [Hfresh Hnd].
    destruct (bool_decide (nd.1 ∈ SKIP)); simpl; [by apply IHrest |].
    apply NoDup_cons. split; [| by apply IHrest].
    intros Hin. apply Hfresh.
    apply list_elem_of_In, in_map_iff in Hin as (x & Hx & Hin).
    apply in_concat in Hin as (l & Hl & Hxl).
    apply in_map_iff in Hl as (y & <- & Hy).
    destruct (bool_decide (y.1 ∈ SKIP)); [done |].
    destruct Hxl as [<- | []]. simpl in Hx. rewrite <- Hx.
    apply list_elem_of_In, in_map_iff. by exists y.
  - apply forallb_forall. intros x Hin.
    apply in_concat in Hin as (l & Hl & Hxl).
    apply in_map_iff in Hl as (y & <- & Hy).
    destruct (bool_decide (y.1 ∈ SKIP)); [done |].
    destruct Hxl as [<- | []]. simpl.
    rewrite Forall_forall in IH, Hwf. apply list_elem_of_In in Hy. auto.
Qed.

Lemma walk_erase d : ∀ root,
  wf_dir d = true → walk root (erase d) = walk root d.
Proof.
  induction d as [files subdirs IH] using dir_induction.
  intros root Hwf. pose proof (wf_erase _ Hwf) as Hwf'.
  apply wf_dir_inv in Hwf as [Hnd Hwf]. cbn [erase] in *.
  apply wf_dir_inv in Hwf' as [Hnd' _].
  rewrite !walk_unfold by done. f_equal. clear Hnd Hnd'.
  induction subdirs as [| nd rest IHrest]; [done |].
  apply Forall_cons in IH as [IHnd IH]. apply Forall_cons in Hwf as [Hwfnd Hwf].
  cbn [map concat flat_map].
  rewrite flat_map_app, IHrest by done. f_equal.
  destruct (bool_decide (nd.1 ∈ SKIP)) eqn:Hskip; [done |].
  cbn [flat_map fst snd]. rewrite Hskip, app_nil_r. by apply IHnd.
Qed.

Lemma excluded_not_visited path d p files :
  wf_dir d = true → Exists (λ name, name ∈ SKIP) p →
  ¬ In ([path] ++ p, files) (walk [path] d).
Proof.
  intros Hwf Hex Hin.
  destruct (walk_roots _ _ _ _ Hwf Hin) as (q & Heq & Hq).
  apply app_inv_head in Heq as ->.
  apply Exists_exists in Hex as (name & Hname & Hskip).
  rewrite Forall_forall in Hq. by apply (Hq name).
Qed.

(** *** The sizing pass *)

Lemma Qltb_lt x y : Qltb x y = true ↔ (x < y)%Q.
Proof.
  unfold Qltb. rewrite negb_true_iff, <- not_true_iff_false, Qle_bool_iff.
  split; [apply Qnot_le_lt | apply Qlt_not_le].
Qed.

Lemma Qltb_iff x y x' y' :
  ((x < y)%Q ↔ (x' < y')%Q) → Qltb x y = Qltb x' y'.
Proof.
  intros H. apply eq_true_iff_eq. by rewrite !Qltb_lt.
Qed.

Lemma Qltb_inject a b : Qltb (inject_Z a) (inject_Z b) = (a <? b).
Proof.
  apply eq_true_iff_eq. by rewrite Qltb_lt, Z.ltb_lt, Zlt_Qlt.
Qed.

Lemma Qltb_div q b :
  Qltb (q / inject_Z 1024) (inject_Z b) = Qltb q (inject_Z (1024 * b)).
Proof.
  apply Qltb_iff. destruct q as [n d]. unfold Qlt. simpl.
  rewrite Pos2Z.inj_mul. lia.
Qed.

Lemma Qltb_weaken q a b :
  Qltb q (inject_Z a) = true → a ≤ b → Qltb q (inject_Z b) = true.
Proof.
  rewrite !Qltb_lt. intros Hq Hab.
  eapply Qlt_le_trans; [done |]. by rewrite <- Zle_Qle.
Qed.

Lemma human_units count : ∀ rest unit q st,
  (human count q (unit :: rest) st).1 =
  Ret (if Qltb q (inject_Z (1024 ^ Z.of_nat (S (length rest))))
       then PyInt count else PyNone).
Proof.
  induction rest as [| unit' rest IH]; intros unit q st.
  - cbn [human length]. change (1024 ^ Z.of_nat 1) with 1024.
    by destruct (Qltb q (inject_Z 1024)).
  - specialize (IH unit'). remember (unit' :: rest) as us eqn:Hus.
    cbn [human length]. rewrite Nat2Z.inj_succ, Z.pow_succ_r by lia.
    destruct (Qltb q (inject_Z 1024)) eqn:Hq.
    + rewrite (Qltb_weaken _ _ _ Hq); [done |].
      assert (0 < 1024 ^ Z.of_nat (length us)) by (apply Z.pow_pos_nonneg; lia).
      lia.
    + rewrite IH, Qltb_div. subst us. cbn [length].
      by rewrite Nat2Z.inj_succ, Z.pow_succ_r by lia.
Qed.

Lemma total_bytes_app l1 l2 :
  total_bytes (l1 ++ l2) = (total_bytes l1 + total_bytes l2)%N.
Proof.
  unfold total_bytes. induction l1 as [| rf l1 IH]; simpl; [done |].
  rewrite IH. lia.
Qed.

Lemma size_errors_cons af files :
  size_errors (af :: files) = size_errors [af] ++ size_errors files.
Proof. unfold size_errors. simpl. by rewrite app_nil_r. Qed.

Lemma size_file_run root af count total st :
  size_file root af (count, total) st =
  (Ret (count + 1, (total + known_size (root, af))%N),
   add_effects st (size_errors [af])).
Proof.
  unfold size_file, known_size, size_errors. destruct af as [name [n | err]]; simpl.
  - unfold ret. by rewrite add_effects_nil.
  - unfold bind, ret. rewrite perform_run. by rewrite N.add_0_r.
Qed.

Lemma size_files_run root files : ∀ count total st,
  for_each files (size_file root) (count, total) st =
  (Ret (count + Z.of_nat (length files),
        (total + total_bytes (map (pair root) files))%N),
   add_effects st (size_errors files)).
Proof.
  induction files as [| af files IH]; intros count total st.
  - simpl. unfold ret. by rewrite add_effects_nil, Z.add_0_r, N.add_0_r.
  - cbn [for_each]. unfold bind. rewrite size_file_run, IH, add_effects_app.
    rewrite (size_errors_cons af files).
    change (total_bytes (map (pair root) (af :: files)))
      with (known_size (root, af) + total_bytes (map (pair root) files))%N.
    rewrite N.add_assoc.
    replace (count + Z.of_nat (length (af :: files)))
      with (count + 1 + Z.of_nat (length files)) by (cbn [length]; lia).
    reflexivity.
Qed.

Lemma size_walk_run (l : list (pathname * list (string * fsize))) :
  ∀ count total st,
  for_each l (λ rf acc, for_each rf.2 (size_file rf.1) acc) (count, total) st =
  (Ret (count + Z.of_nat (length (flat_map (λ rf, map (pair rf.1) rf.2) l)),
        (total + total_bytes (flat_map (λ rf, map (pair rf.1) rf.2) l))%N),
   add_effects st (flat_map (λ rf, size_errors rf.2) l)).
Proof.
  induction l as [| [root files] l IH]; intros count total st.
  - simpl. unfold ret. by rewrite add_effects_nil, Z.add_0_r, N.add_0_r.
  - cbn [for_each flat_map fst snd]. unfold bind at 1.
    rewrite size_files_run, IH, add_effects_app, length_app, total_bytes_app.
    rewrite length_map, N.add_assoc, Nat2Z.inj_add, Z.add_assoc. reflexivity.
Qed.

Lemma init_loop_run path d st :
  init_loop path d st =
  (Ret (Z.of_nat (length (enumerated path d)), total_bytes (enumerated path d)),
   add_effects st (flat_map (λ rf, size_errors rf.2) (walk [path] d))).
Proof.
  unfold init_loop, enumerated. rewrite size_walk_run.
  by rewrite Z.add_0_l, N.add_0_l.
Qed.

(** C10: [init] hands back the file count exactly when the total of the
    sizes of the enumerated files is below 1024^5 bytes; from 1024^5
    bytes on, the loop over the five units ends without reaching the
    return statement and [init] hands back [None]. *)
Theorem init_returns_none_from_1024_tib path d st :
  let files := enumerated path d in
  (init path d st).1 =
  Ret (if Z.of_N (total_bytes files) <? 1024 ^ 5
       then PyInt (Z.of_nat (length files))
       else PyNone).
Proof.
  cbv zeta. unfold init. unfold bind at 1. rewrite log_comment_run.
  unfold bind at 1. rewrite init_loop_run. unfold units.
  rewrite human_units, Qltb_inject. reflexivity.
Qed.

(** *** The dispatch pass *)

Lemma dofile_calls_app es1 es2 :
  dofile_calls (es1 ++ es2) = dofile_calls es1 ++ dofile_calls es2.
Proof. apply omap_app. Qed.

Lemma encrypted_notices_app es1 es2 :
  encrypted_notices (es1 ++ es2) = encrypted_notices es1 ++ encrypted_notices es2.
Proof. apply omap_app. Qed.

Lemma in_dofile_calls t p es : In (DoFile t p) es ↔ In (t, p) (dofile_calls es).
Proof.
  unfold dofile_calls. rewrite <- !list_elem_of_In, list_elem_of_omap. split.
  - intros Hin. by exists (DoFile t p).
  - intros (e & Hin & He). destruct e; try done. by injection He as -> ->.
Qed.

Lemma in_encrypted_notices t a es :
  In (Encrypted t a) es ↔ In (t, a) (encrypted_notices es).
Proof.
  unfold encrypted_notices. rewrite <- !list_elem_of_In, list_elem_of_omap. split.
  - intros Hin. by exists (Encrypted t a).
  - intros (e & Hin & He). destruct e; try done. by injection He as -> ->.
Qed.

Lemma scan_file_run b root af scanned bc st :
  ∃ bc' es,
    scan_file b root af (scanned, bc) st =
      (Ret (scanned + Z.of_nat (length (omap scanner_call [(root, af)])), bc'),
       add_effects st es)
    ∧ dofile_calls es = omap scanner_call [(root, af)]
    ∧ encrypted_notices es = omap encrypted_notice [(root, af)].
Proof.
  unfold scan_file. cbn [omap list_omap]. unfold scanner_call, encrypted_notice.
  cbn [fst snd]. unfold bind, perform, ret.
  destruct (infilename_search (PyStr.lower af.1)) as [found |];
    destruct (type_file (abspath (root ++ [af.1]))) as [t [|]];
    cbn [andb negb]; try destruct (bool_decide (t ∈ ENCRYPTED));
    cbn [andb negb]; try destruct (b <=? bc + 1);
    cbn [length]; rewrite ?emit_add, ?add_effects_app, ?Z.add_0_r;
    first [ by eexists _, _; split; [reflexivity |]
          | exists bc, []; by rewrite add_effects_nil ].
Qed.

Lemma scan_files_run b root files : ∀ scanned bc st,
  ∃ bc' es,
    for_each files (scan_file b root) (scanned, bc) st =
      (Ret (scanned
            + Z.of_nat (length (omap scanner_call (map (pair root) files))), bc'),
       add_effects st es)
    ∧ dofile_calls es = omap scanner_call (map (pair root) files)
    ∧ encrypted_notices es = omap encrypted_notice (map (pair root) files).
Proof.
  induction files as [| af files IH]; intros scanned bc st.
  - exists bc, []. simpl. unfold ret. by rewrite add_effects_nil, Z.add_0_r.
  - destruct (scan_file_run b root af scanned bc st) as (bc1 & es1 & Hrun1 & Hd1 & He1).
    destruct (IH (scanned + Z.of_nat (length (omap scanner_call [(root, af)])))
                 bc1 (add_effects st es1)) as (bc2 & es2 & Hrun2 & Hd2 & He2).
    exists bc2, (es1 ++ es2). cbn [for_each]. unfold bind.
    rewrite Hrun1, Hrun2, add_effects_app, dofile_calls_app, encrypted_notices_app.
    rewrite Hd1, Hd2, He1, He2.
    change (map (pair root) (af :: files))
      with ([(root, af)] ++ map (pair root) files).
    rewrite !omap_app, length_app, Nat2Z.inj_add, Z.add_assoc. done.
Qed.

Lemma scan_walk_run b (l : list (pathname * list (string * fsize))) :
  ∀ scanned bc st,
  ∃ bc' es,
    for_each l (λ rf acc, for_each rf.2 (scan_file b rf.1) acc) (scanned, bc) st =
      (Ret (scanned
            + Z.of_nat (length (omap scanner_call
                                     (flat_map (λ rf, map (pair rf.1) rf.2) l))),
            bc'),
       add_effects st es)
    ∧ dofile_calls es = omap scanner_call (flat_map (λ rf, map (pair rf.1) rf.2) l)
    ∧ encrypted_notices es
      = omap encrypted_notice (flat_map (λ rf, map (pair rf.1) rf.2) l).
Proof.
  induction l as [| [root files] l IH]; intros scanned bc st.
  - exists bc, []. simpl. unfold ret. by rewrite add_effects_nil, Z.add_0_r.
  - destruct (scan_files_run b root files scanned bc st)
      as (bc1 & es1 & Hrun1 & Hd1 & He1).
    destruct (IH (scanned
                  + Z.of_nat (length (omap scanner_call (map (pair root) files))))
                 bc1 (add_effects st es1)) as (bc2 & es2 & Hrun2 & Hd2 & He2).
    exists bc2, (es1 ++ es2). cbn [for_each flat_map fst snd]. unfold bind.
    rewrite Hrun1, Hrun2, add_effects_app, dofile_calls_app, encrypted_notices_app.
    rewrite Hd1, Hd2, He1, He2.
    rewrite !omap_app, length_app, Nat2Z.inj_add, Z.add_assoc. done.
Qed.

Lemma scan_run path c d st :
  ∃ es,
    scan path (PyInt c) d st =
      (Ret (PyInt (Z.of_nat (length (omap scanner_call (enumerated path d))))),
       add_effects st es)
    ∧ dofile_calls es = omap scanner_call (enumerated path d)
    ∧ encrypted_notices es = omap encrypted_notice (enumerated path d).
Proof.
  unfold scan, scan_loop, int_div.
  unfold bind at 1. rewrite log_comment_run.
  unfold bind at 1. rewrite perform_run, add_effects_app.
  unfold bind at 1. rewrite perform_run, add_effects_app.
  unfold bind at 1. unfold ret at 1.
  match goal with |- context [bind (for_each _ _ _) _ ?s] =>
    destruct (scan_walk_run (c / 32) (walk [path] d) 0 0 s)
      as (bc & es & Hrun & Hd & He)
  end.
  unfold bind at 1. rewrite Hrun, add_effects_app.
  unfold bind at 1. rewrite perform_run, add_effects_app.
  unfold bind at 1. rewrite log_comment_run, add_effects_app.
  unfold ret. rewrite Z.add_0_l. eexists. split; [reflexivity |].
  rewrite !dofile_calls_app, !encrypted_notices_app, Hd, He. simpl.
  by rewrite !app_nil_r.
Qed.

(** When [init] has handed back [None], [count/bar_width] raises and the
    loop never starts. *)
Lemma scan_without_count path d st :
  ∃ es, scan path PyNone d st = (Raise TypeError, add_effects st es)
        ∧ dofile_calls es = [].
Proof.
  unfold scan, int_div.
  unfold bind at 1. rewrite log_comment_run.
  unfold bind at 1. rewrite perform_run, add_effects_app.
  unfold bind at 1. rewrite perform_run, add_effects_app.
  unfold bind, raise. by eexists.
Qed.

(** C8: a file that the walk enumerates, that the classifier reports as
    supported and whose type is in [ENCRYPTED] gets its encrypted notice
    in the log and no call of the content scanner; the count that [scan]
    hands back is the number of calls of the content scanner, one for
    each enumerated file that is supported and not encrypted, so the file
    is not in it. *)
Theorem encrypted_never_scanned path c d st root af t :
  In (root, af) (enumerated path d) →
  type_file (abspath (root ++ [af.1])) = (t, true) →
  t ∈ ENCRYPTED →
  ∃ es,
    scan path (PyInt c) d st =
      (Ret (PyInt (Z.of_nat (length (dofile_calls es)))), add_effects st es)
    ∧ In (Encrypted t af.1) es
    ∧ (∀ t', ¬ In (DoFile t' (abspath (root ++ [af.1]))) es)
    ∧ dofile_calls es = omap scanner_call (enumerated path d)
    ∧ scanner_call (root, af) = None.
Proof.
  intros Hin Htype Henc.
  destruct (scan_run path c d st) as (es & Hrun & Hd & He).
  exists es. rewrite Hd. repeat split; [done | | |].
  - apply in_encrypted_notices. rewrite He.
    apply list_elem_of_In, list_elem_of_omap. exists (root, af).
    split; [by apply list_elem_of_In |].
    unfold encrypted_notice. cbn [fst snd]. rewrite Htype.
    by rewrite bool_decide_eq_true_2.
  - intros t' Hcall. apply in_dofile_calls in Hcall. rewrite Hd in Hcall.
    apply list_elem_of_In, list_elem_of_omap in Hcall as (rf & _ & Hcall).
    unfold scanner_call in Hcall.
    destruct (type_file (abspath (rf.1 ++ [rf.2.1]))) as [t0 sup] eqn:Hrf.
    destruct (sup && negb (bool_decide (t0 ∈ ENCRYPTED))) eqn:Hcond; [| done].
    injection Hcall as -> Hp. rewrite Hp, Htype in Hrf.
    injection Hrf as <- <-.
    by rewrite bool_decide_eq_true_2 in Hcond.
  - unfold scanner_call. cbn [fst snd]. rewrite Htype.
    by rewrite bool_decide_eq_true_2.
Qed.

Lemma files_at_erase d : ∀ p,
  Exists (λ name, name ∈ SKIP) p → files_at (erase d) p = [].
Proof.
  induction d as [files subdirs IH] using dir_induction.
  intros [| name p] Hex; [by apply Exists_nil in Hex |].
  cbn [erase files_at].
  induction subdirs as [| nd rest IHrest]; [done |].
  apply Forall_cons in IH as [IHnd IH]. cbn [map concat].
  destruct (bool_decide (nd.1 ∈ SKIP)) eqn:Hskip; [by apply IHrest |].
  cbn [app fst snd]. destruct (String.eqb nd.1 name) eqn:Hname; [| by apply IHrest].
  apply String.eqb_eq in Hname. subst name.
  apply bool_decide_eq_false in Hskip.
  apply Exists_cons in Hex as [Hhere | Hlater]; [done |]. by apply IHnd.
Qed.

(** C7: in a tree whose sibling directories have distinct names, a
    directory below the root whose path has a component in [SKIP], at any
    depth, is not visited by the walk that both passes make, and none of
    its files is enumerated; [init] and [scan] do on the tree what they do
    on the tree from which every directory of an excluded name has been
    deleted, where no such file is left. *)
Theorem exclusion_is_total path count d st p :
  wf_dir d = true →
  Exists (λ name, name ∈ SKIP) p →
  (∀ files, ¬ In ([path] ++ p, files) (walk [path] d))
  ∧ (∀ af, ¬ In ([path] ++ p, af) (enumerated path d))
  ∧ init path d st = init path (erase d) st
  ∧ scan path count d st = scan path count (erase d) st
  ∧ files_at (erase d) p = [].
Proof.
  intros Hwf Hex. repeat split.
  - intros files. by apply excluded_not_visited.
  - intros af Hin. unfold enumerated in Hin.
    apply in_flat_map in Hin as ([root files] & Hvisit & Hin).
    apply in_map_iff in Hin as (af' & Heq & _). cbn [fst snd] in Heq.
    injection Heq as -> _. by apply excluded_not_visited in Hvisit.
  - unfold init, init_loop. by rewrite walk_erase.
  - unfold scan, scan_loop. by rewrite walk_erase.
  - by apply files_at_erase.
Qed.

(** Files outside the excluded directories are enumerated: the walk
    leaves out nothing else. *)
Lemma not_excluded_visited d : ∀ root p af,
  wf_dir d = true → Forall (λ name, name ∉ SKIP) p →
  In af (files_at d p) →
  In (root ++ p, files_at d p) (walk root d).
Proof.
  induction d as [files subdirs IH] using dir_induction.
  intros root p af [Hnd Hwf]%wf_dir_inv Hp Hin. rewrite walk_unfold by done.
  destruct p as [| name p].
  - left. by rewrite app_nil_r.
  - right. apply Forall_cons in Hp as [Hname Hp]. cbn [files_at] in *.
    clear Hnd. induction subdirs as [| nd rest IHrest]; [done |].
    apply Forall_cons in IH as [IHnd IH]. apply Forall_cons in Hwf as [Hwfnd Hwf].
    cbn [flat_map]. apply in_or_app.
    destruct (String.eqb nd.1 name) eqn:Heq.
    + left. apply String.eqb_eq in Heq. subst name.
      rewrite bool_decide_eq_false_2 by done.
      replace (root ++ nd.1 :: p) with ((root ++ [nd.1]) ++ p)
        by (by rewrite <- app_assoc).
      by eapply IHnd.
    + right. by apply IHrest.
Qed.

Lemma not_excluded_enumerated path d p af :
  wf_dir d = true → Forall (λ name, name ∉ SKIP) p →
  In af (files_at d p) →
  In ([path] ++ p, af) (enumerated path d).
Proof.
  intros Hwf Hp Hin. unfold enumerated. apply in_flat_map.
  exists ([path] ++ p, files_at d p). split.
  - by eapply not_excluded_visited.
  - cbn [fst snd]. by apply in_map.
Qed.

(** *** The run *)

Lemma dofile_calls_reports pwd regex salt verifier lines :
  dofile_calls (reports pwd regex salt verifier lines) = [].
Proof.
  unfold reports, verifier_report, regex_report.
  rewrite !dofile_calls_app.
  destruct (mismatch pwd salt verifier), (re_compiles regex); simpl;
    (induction lines as [| line rest IH]; [done |]);
    cbn [flat_map]; rewrite dofile_calls_app, IH; unfold line_reports;
    by destruct (bad_length (PyStr.strip line)), (bad_hex (PyStr.strip line)).
Qed.

Ltac calls :=
  repeat (rewrite ?dofile_calls_app, ?dofile_calls_reports, ?app_nil_r; simpl).

Lemma run_aborted w path hashesfile st c st' :
  hashesfile ≠ "" →
  get_hashes hashesfile (w_getpass w) (w_open w hashesfile) (started w st)
    = (Exit c, st') →
  run w path hashesfile st = (Exit c, st').
Proof.
  intros Hne%String.eqb_neq Hget. unfold run, banner.
  unfold bind at 1. rewrite perform_run.
  unfold bind at 1. rewrite log_comment_run, add_effects_app.
  rewrite Hne. cbn [negb]. unfold bind at 1.
  change (add_effects st _) with (started w st). rewrite Hget. reflexivity.
Qed.

Lemma main_with_hashes w path hashesfile st :
  w_exists w path = true → w_exists w hashesfile = true →
  main w [path; hashesfile] st = run w path hashesfile st.
Proof. intros Hp Hh. unfold main. by rewrite Hp, Hh. Qed.


(** C1, as the code has it: the hash set is committed only when the whole
    validation succeeds, that is, when the second line splits into two
    fields, the stored verifier equals the computed one, the regex
    compiles and no hash line is malformed; then the key and the regex are
    committed with it. The key and the regex are committed only when the
    stored verifier equals the computed one: when it differs, or when the
    second line does not split, none of the three is committed. Every
    failure, whichever check it comes from, ends the run with status 1 and
    leaves the hash set as it was: when [main] has called [get_hashes] and
    it has not returned, that is the end of [main], and the content
    scanner has not been called. *)
Theorem commit_rules hashesfile pwd content st :
  let r := get_hashes hashesfile pwd content st in
  let regex := artifact_regex content in
  let lines := artifact_lines content in
  (r.1 = Ret tt ∨ r.1 = Exit 1 ∧ HASHES r.2 = HASHES st)
  ∧ (r.1 = Ret tt ↔
     ∃ salt verifier,
       artifact_fields content = [salt; verifier]
       ∧ verifier = (key_derivation pwd salt).1.2
       ∧ re_compiles regex = true
       ∧ Forall (λ line, malformed line = false) lines)
  ∧ (r.1 = Ret tt →
     ∃ salt verifier,
       artifact_fields content = [salt; verifier]
       ∧ verifier = (key_derivation pwd salt).1.2
       ∧ HASHES r.2 = list_to_set (map PyStr.strip lines)
       ∧ HASH_KEY r.2 = DerivedKey (derived_key pwd salt)
       ∧ HASH_REGEX r.2 = regex)
  ∧ (length (artifact_fields content) ≠ 2%nat →
     r.1 = Exit 1
     ∧ HASHES r.2 = HASHES st
     ∧ HASH_KEY r.2 = HASH_KEY st ∧ HASH_REGEX r.2 = HASH_REGEX st)
  ∧ (∀ salt verifier, artifact_fields content = [salt; verifier] →
     verifier ≠ (key_derivation pwd salt).1.2 →
     r.1 = Exit 1
     ∧ HASHES r.2 = HASHES st
     ∧ HASH_KEY r.2 = HASH_KEY st ∧ HASH_REGEX r.2 = HASH_REGEX st)
  ∧ (∀ salt verifier, artifact_fields content = [salt; verifier] →
     re_compiles regex = false
     ∨ (∃ line, In line lines ∧ malformed line = true) →
     r.1 = Exit 1 ∧ HASHES r.2 = HASHES st)
  ∧ (∀ w path rest st0,
       hashesfile ≠ "" →
       w_exists w path = true → w_exists w hashesfile = true →
       pwd = w_getpass w → content = w_open w hashesfile → st = started w st0 →
       r.1 ≠ Ret tt →
       main w (path :: hashesfile :: rest) st0 = (Exit 1, r.2)
       ∧ dofile_calls (effects r.2) = dofile_calls (effects st0)).
Proof.
  cbv zeta. split; [| split; [| split; [| split; [| split; [| split]]]]].
  - destruct (artifact_fields_cases content) as [Hlen | (salt & verifier & Hf)].
    + rewrite get_hashes_parse_failure by done. by right.
    + rewrite (get_hashes_split _ _ _ _ _ _ Hf). cbv zeta.
      destruct (failed _ _ _ _ _); [right | by left]. split; [done |].
      unfold after_verifier. by destruct (mismatch pwd salt verifier).
  - destruct (artifact_fields_cases content) as [Hlen | (salt & verifier & Hf)].
    { rewrite get_hashes_parse_failure by done. split; [done |].
      intros (salt & verifier & Hf & _). by rewrite Hf in Hlen. }
    rewrite (get_hashes_split _ _ _ _ _ _ Hf). cbv zeta.
    destruct (failed _ _ _ _ _) eqn:Hfail; cbn [fst]; unfold failed in Hfail.
    + split; [done |].
      intros (salt' & verifier' & Hf' & Hver & Hre & Hlines).
      rewrite Hf in Hf'. injection Hf' as <- <-.
      apply existsb_malformed_false in Hlines.
      assert (Hm : mismatch pwd salt verifier = false).
      { apply not_true_is_false. by intros Hm%mismatch_true. }
      by rewrite Hm, Hre, Hlines in Hfail.
    + split; [| done]. intros _.
      apply orb_false_elim in Hfail as [[Hm Hre]%orb_false_elim Hlines].
      exists salt, verifier. split; [done |]. split; [| split].
      * apply dec_stable. intros Hne%mismatch_true. congruence.
      * by apply negb_false_iff.
      * by apply existsb_malformed_false.
  - destruct (artifact_fields_cases content) as [Hlen | (salt & verifier & Hf)].
    { by rewrite get_hashes_parse_failure. }
    rewrite (get_hashes_split _ _ _ _ _ _ Hf). cbv zeta.
    destruct (failed _ _ _ _ _) eqn:Hfail; [done |]. intros _.
    unfold failed in Hfail.
    apply orb_false_elim in Hfail as [[Hm Hre]%orb_false_elim Hlines].
    exists salt, verifier. unfold after_verifier. rewrite Hm.
    split; [done |]. split; [| done].
    apply dec_stable. intros Hne%mismatch_true. congruence.
  - intros Hlen. by rewrite get_hashes_parse_failure.
  - intros salt verifier Hf Hne%mismatch_true.
    rewrite (get_hashes_split _ _ _ _ _ _ Hf). cbv zeta.
    unfold failed, after_verifier. by rewrite Hne.
  - intros salt verifier Hf Hbad.
    rewrite (get_hashes_split _ _ _ _ _ _ Hf). cbv zeta.
    assert (Hfail : failed pwd (artifact_regex content) salt verifier
                      (artifact_lines content) = true).
    { unfold failed. destruct Hbad as [Hre | (line & Hin & Hline)].
      - rewrite Hre. simpl. by rewrite orb_true_r.
      - rewrite (existsb_malformed _ _ Hin Hline). by rewrite orb_true_r. }
    rewrite Hfail. split; [done |].
    unfold after_verifier. by destruct (mismatch pwd salt verifier).
  - intros w path rest st0 Hne Hpath Hfile -> -> -> Hno.
    unfold main. rewrite Hpath, Hfile. cbn [negb].
    destruct (artifact_fields_cases (w_open w hashesfile))
      as [Hlen | (salt & verifier & Hf)].
    + rewrite get_hashes_parse_failure in * by done. cbn [fst snd]. split.
      * apply run_aborted; [done |]. by apply get_hashes_parse_failure.
      * unfold add_effects, started. cbn [effects]. by calls.
    + rewrite (get_hashes_split _ _ _ _ _ _ Hf) in Hno |- *. cbv zeta in Hno |- *.
      destruct (failed _ _ _ _ _) eqn:Hfail; [| done]. cbn [fst snd]. split.
      * apply run_aborted; [done |].
        rewrite (get_hashes_split _ _ _ _ _ _ Hf). cbv zeta. by rewrite Hfail.
      * unfold add_effects. cbn [effects]. rewrite effects_after_verifier.
        unfold started, add_effects. cbn [effects]. by calls.
Qed.

(** *** count_secrets *)

Lemma drop_empty n : PyStr.drop n "" = "".
Proof. by destruct n. Qed.

Lemma marker_no_overlap c s :
  String.prefix "SECRET," (String c s) = true →
  PyStr.occurrences "SECRET," (PyStr.drop 6 s) = PyStr.occurrences "SECRET," s.
Proof.
  intros H. cbn [String.prefix] in H. destruct (ascii_dec _ c); [| done].
  do 6 (destruct s as [| ? s]; [done |]; cbn [String.prefix] in H;
        destruct (ascii_dec _ _); [subst | done]).
  reflexivity.
Qed.

Lemma count_from_occurrences s : ∀ skip,
  PyStr.count_from "SECRET," skip s = PyStr.occurrences "SECRET," (PyStr.drop skip s).
Proof.
  induction s as [| c s IH]; intros skip.
  - by rewrite drop_empty.
  - destruct skip as [| k]; [| apply IH].
    cbn [PyStr.count_from PyStr.drop PyStr.occurrences].
    destruct (String.prefix "SECRET," (String c s)) eqn:Hp.
    + change (String.length "SECRET," - 1)%nat with 6%nat.
      by rewrite IH, (marker_no_overlap c s Hp).
    + by rewrite (IH 0%nat).
Qed.

(** The marker cannot overlap itself, so what [str.count] counts is the
    number of positions at which the marker occurs. *)
Lemma count_marker logs :
  PyStr.count logs "SECRET," = PyStr.occurrences "SECRET," logs.
Proof. unfold PyStr.count. by rewrite count_from_occurrences. Qed.

(** C9, as the code has it: [count_secrets] counts the occurrences of the
    marker [SECRET,] in the text of the log file and tells the number in
    one log comment; it hands back no value, and it leaves the hash set,
    the key and the regex as they are. *)
Theorem count_secrets_tallies logs st :
  count_secrets logs st =
    (Ret PyNone,
     add_effects st
       [Comment (Msg ("%d files or strings flagged as "
                      +:+ PyStr.dquote +:+ "secret" +:+ PyStr.dquote)
                     [AInt (Z.of_nat (PyStr.occurrences "SECRET," logs))])])
  ∧ HASHES (count_secrets logs st).2 = HASHES st
  ∧ HASH_KEY (count_secrets logs st).2 = HASH_KEY st
  ∧ HASH_REGEX (count_secrets logs st).2 = HASH_REGEX st.
Proof.
  unfold count_secrets, bind, ret. rewrite log_comment_run, count_marker.
  by repeat split.
Qed.

(** ** Further properties of the code *)

(** *** Reading the artifact *)

Lemma split_comma_length s :
  length (PyStr.split_comma s) = S (PyStr.commas s).
Proof.
  induction s as [| c s IH]; [done |]. cbn [PyStr.split_comma PyStr.commas].
  destruct (Ascii.eqb c PyStr.comma); [simpl; by rewrite IH |].
  destruct (PyStr.split_comma s) as [| f fs]; [done |]. simpl in *. lia.
Qed.

Lemma join_split_comma s : PyStr.join_comma (PyStr.split_comma s) = s.
Proof.
  induction s as [| c s IH]; [done |]. cbn [PyStr.split_comma].
  pose proof (split_comma_length s) as Hlen.
  destruct (PyStr.split_comma s) as [| f fs] eqn:Hs; [done |].
  destruct (Ascii.eqb c PyStr.comma) eqn:Hc.
  - apply Ascii.eqb_eq in Hc. subst c.
    change (PyStr.join_comma ("" :: f :: fs))
      with (String PyStr.comma (PyStr.join_comma (f :: fs))).
    by rewrite IH.
  - rewrite <- IH. by destruct fs.
Qed.

Lemma split_comma_fields s f :
  In f (PyStr.split_comma s) → PyStr.commas f = 0%nat.
Proof.
  revert f. induction s as [| c s IH]; intros f.
  - intros [<- | []]. done.
  - cbn [PyStr.split_comma].
    destruct (Ascii.eqb c PyStr.comma) eqn:Hc.
    + intros [<- | Hin]; [done | by apply IH].
    + destruct (PyStr.split_comma s) as [| g gs]; [intros [<- | []]; simpl; by rewrite Hc |].
      intros [<- | Hin].
      * simpl. rewrite Hc. apply IH. by left.
      * apply IH. by right.
Qed.

Lemma strip_all_space s : PyStr.all_space s = true → PyStr.strip s = "".
Proof.
  unfold PyStr.strip. induction s as [| c s IH]; [done |]. simpl.
  intros [Hc Hs]%andb_true_iff. rewrite Hc. by apply IH.
Qed.

(** X1: [get_hashes] returns, rather than leaving the process, exactly
    when the second line splits into a salt and a verifier, the verifier
    equals the one derived from the password, the regex compiles and no
    hash line is malformed. *)
Theorem get_hashes_accepts_iff hashesfile pwd content st :
  (get_hashes hashesfile pwd content st).1 = Ret tt
  ↔ ∃ salt verifier,
      artifact_fields content = [salt; verifier]
      ∧ verifier = (key_derivation pwd salt).1.2
      ∧ re_compiles (artifact_regex content) = true
      ∧ Forall (λ line, malformed line = false) (artifact_lines content).
Proof.
  destruct (artifact_fields_cases content) as [Hlen | (salt & verifier & Hf)].
  - rewrite get_hashes_parse_failure by done. split; [done |].
    intros (salt & verifier & Hf & _). by rewrite Hf in Hlen.
  - rewrite (get_hashes_split _ _ _ _ _ _ Hf). cbv zeta. unfold failed.
    split.
    + destruct (mismatch pwd salt verifier) eqn:Hm; [done |].
      destruct (re_compiles (artifact_regex content)) eqn:Hre; [| done].
      destruct (existsb malformed (artifact_lines content)) eqn:Hl; [done |].
      intros _. exists salt, verifier.
      split; [done |]. split; [| split; [done |]].
      * apply dec_stable. intros Hne%mismatch_true. congruence.
      * by apply existsb_malformed_false.
    + intros (salt' & verifier' & Hf' & Hv & Hre & Hl).
      rewrite Hf in Hf'. injection Hf' as <- <-.
      assert (mismatch pwd salt verifier = false) as ->.
      { apply not_true_is_false. by intros Hm%mismatch_true. }
      apply existsb_malformed_false in Hl. by rewrite Hre, Hl.
Qed.

(** X2: once [get_hashes] has returned, every member of [HASHES] is the
    stripped text of a hash line of the artifact, has exactly
    [2*HASH_BYTES] characters and is accepted by [int(., 16)]. *)
Theorem activated_hashes_well_formed hashesfile pwd content st h :
  (get_hashes hashesfile pwd content st).1 = Ret tt →
  h ∈ HASHES (get_hashes hashesfile pwd content st).2 →
  String.length h = (2 * HASH_BYTES)%nat
  ∧ int16_parses h = true
  ∧ ∃ line, In line (artifact_lines content) ∧ h = PyStr.strip line.
Proof.
  destruct (artifact_fields_cases content) as [Hlen | (salt & verifier & Hf)].
  { by rewrite get_hashes_parse_failure. }
  rewrite (get_hashes_split _ _ _ _ _ _ Hf). cbv zeta.
  destruct (failed _ _ _ _ _) eqn:Hfail; [done |]. intros _. cbn [snd].
  unfold add_effects, with_hashes. cbn [HASHES].
  rewrite elem_of_list_to_set. intros Hin.
  apply list_elem_of_In, in_map_iff in Hin as (line & <- & Hin).
  unfold failed in Hfail. apply orb_false_elim in Hfail as [_ Hlines].
  apply existsb_malformed_false in Hlines. rewrite Forall_forall in Hlines.
  apply list_elem_of_In in Hin as Hin'. specialize (Hlines line Hin').
  unfold malformed, bad_length, bad_hex in Hlines.
  apply orb_false_elim in Hlines as [Hl%negb_false_iff Hh%negb_false_iff].
  apply Nat.eqb_eq in Hl. repeat split; [done | done |]. by exists line.
Qed.

(** X3: the second line needs exactly one comma. When it has none or
    more than one, as in a file of fewer than two lines, [get_hashes] logs
    the parse failure and leaves with status 1, the globals untouched;
    when it has one, the salt and the verifier are the texts before and
    after it. *)
Theorem verifier_line_needs_one_comma hashesfile pwd content st :
  let aborted :=
    (Exit 1,
     add_effects st
       (opening hashesfile
        ++ [Comment (Msg "failed to extract verifier and salt" []); farewell])) in
  (PyStr.commas (artifact_second content) ≠ 1%nat →
   get_hashes hashesfile pwd content st = aborted)
  ∧ ((PyStr.readline content).2 = "" →
     get_hashes hashesfile pwd content st = aborted)
  ∧ (PyStr.commas (artifact_second content) = 1%nat →
     ∃ salt verifier,
       artifact_fields content = [salt; verifier]
       ∧ artifact_second content = salt +:+ String PyStr.comma verifier
       ∧ PyStr.commas salt = 0%nat ∧ PyStr.commas verifier = 0%nat).
Proof.
  cbv zeta. split; [| split].
  - intros Hne. apply get_hashes_parse_failure.
    unfold artifact_fields. fold (artifact_second content).
    rewrite split_comma_length. lia.
  - intros Hrest. apply get_hashes_parse_failure.
    unfold artifact_fields. by rewrite Hrest.
  - intros Hone.
    pose proof (split_comma_length (artifact_second content)) as Hlen.
    pose proof (join_split_comma (artifact_second content)) as Hjoin.
    pose proof (split_comma_fields (artifact_second content)) as Hfields.
    unfold artifact_fields. fold (artifact_second content).
    destruct (PyStr.split_comma (artifact_second content))
      as [| salt [| verifier [| x l]]]; simpl in Hlen; try lia.
    exists salt, verifier. repeat split; [done | |].
    + apply Hfields. by left.
    + apply Hfields. right. by left.
Qed.

(** X4: a hash line of white space only, such as an empty last line, is
    malformed when [HASH_BYTES] is positive: the artifact is rejected, the
    log tells a hash of length 0, and the run ends with status 1. *)
Theorem blank_hash_line_rejects hashesfile pwd content st salt verifier line :
  (0 < HASH_BYTES)%nat →
  artifact_fields content = [salt; verifier] →
  In line (artifact_lines content) →
  PyStr.all_space line = true →
  (get_hashes hashesfile pwd content st).1 = Exit 1
  ∧ In (Comment (Msg "invalid hash length (%d bytes): %s" [AInt 0; AStr ""]))
       (effects (get_hashes hashesfile pwd content st).2)
  ∧ HASHES (get_hashes hashesfile pwd content st).2 = HASHES st.
Proof.
  intros Hpos Hf Hin Hspace. apply strip_all_space in Hspace.
  assert (bad_length (PyStr.strip line) = true) as Hbad.
  { unfold bad_length. rewrite Hspace. apply negb_true_iff, Nat.eqb_neq.
    cbn [String.length]. lia. }
  assert (malformed line = true) as Hmal by (unfold malformed; by rewrite Hbad).
  rewrite (get_hashes_split _ _ _ _ _ _ Hf). cbv zeta. unfold failed.
  rewrite (existsb_malformed _ _ Hin Hmal), orb_true_r. cbn [fst snd].
  split; [done |]. split.
  - unfold add_effects. cbn [effects]. apply in_or_app. right.
    apply in_or_app. left. apply in_or_app. right. unfold reports.
    apply in_or_app. right. apply in_or_app. right.
    pose proof (in_line_reports_length _ _ Hin Hbad) as Hrep.
    by rewrite Hspace in Hrep.
  - unfold after_verifier. by destruct (mismatch pwd salt verifier).
Qed.

(** X5: the order of the hash lines does not matter: two artifacts with
    the same regex, salt and verifier whose stripped hash lines are a
    permutation of each other are both accepted or both rejected, and
    leave the same hash set, key and regex. *)
Theorem hash_order_irrelevant hashesfile pwd content1 content2 st :
  artifact_regex content1 = artifact_regex content2 →
  artifact_fields content1 = artifact_fields content2 →
  map PyStr.strip (artifact_lines content1)
    ≡ₚ map PyStr.strip (artifact_lines content2) →
  let r1 := get_hashes hashesfile pwd content1 st in
  let r2 := get_hashes hashesfile pwd content2 st in
  r1.1 = r2.1 ∧ HASHES r1.2 = HASHES r2.2
  ∧ HASH_KEY r1.2 = HASH_KEY r2.2 ∧ HASH_REGEX r1.2 = HASH_REGEX r2.2.
Proof.
  intros Hregex Hfields Hperm. cbv zeta.
  destruct (artifact_fields_cases content1) as [Hlen | (salt & verifier & Hf)].
  { rewrite !get_hashes_parse_failure; [done | congruence | done]. }
  assert (artifact_fields content2 = [salt; verifier]) as Hf2 by congruence.
  rewrite (get_hashes_split _ _ _ _ _ _ Hf), (get_hashes_split _ _ _ _ _ _ Hf2).
  cbv zeta. unfold failed. rewrite <- Hregex.
  assert (existsb malformed (artifact_lines content1)
          = existsb malformed (artifact_lines content2)) as ->.
  { apply eq_true_iff_eq. rewrite !existsb_exists.
    assert (∀ l1 l2, map PyStr.strip l1 ≡ₚ map PyStr.strip l2 →
            (∃ x, In x l1 ∧ malformed x = true) →
            ∃ x, In x l2 ∧ malformed x = true) as Hone.
    { intros l1 l2 Hp (x & Hx & Hm).
      assert (PyStr.strip x ∈ map PyStr.strip l2) as Hin.
      { rewrite <- Hp. apply list_elem_of_In, in_map, Hx. }
      apply list_elem_of_In, in_map_iff in Hin as (y & Hy & Hin).
      exists y. split; [done |]. unfold malformed in *. by rewrite Hy. }
    split; apply Hone; [done | by symmetry]. }
  assert (list_to_set (map PyStr.strip (artifact_lines content1))
          = (list_to_set (map PyStr.strip (artifact_lines content2)) : gset string))
    as Hset.
  { apply set_eq. intros x. by rewrite !elem_of_list_to_set, Hperm. }
  destruct (_ || _ || _); cbn [fst snd]; unfold add_effects, with_hashes,
    after_verifier; destruct (mismatch pwd salt verifier); cbn [HASHES HASH_KEY HASH_REGEX];
    by rewrite ?Hset.
Qed.


(** *** The sizing pass, in full *)

Lemma human_cases count us : ∀ q st,
  human count q us st = (Ret PyNone, st)
  ∨ ∃ k unit,
      us !! k = Some unit
      ∧ human count q us st =
        (Ret (PyInt count),
         add_effects st
           [size_comment count (Nat.iter k (λ x, (x / inject_Z 1024)%Q) q) unit])
      ∧ Qltb (Nat.iter k (λ x, (x / inject_Z 1024)%Q) q) (inject_Z 1024) = true
      ∧ (k = 0%nat
         ∨ ∃ j, k = S j
                ∧ Qltb (Nat.iter j (λ x, (x / inject_Z 1024)%Q) q) (inject_Z 1024)
                  = false).
Proof.
  induction us as [| unit rest IH]; intros q st; [by left |].
  cbn [human]. destruct (Qltb q (inject_Z 1024)) eqn:Hq.
  - right. exists 0%nat, unit.
    split; [done |]. split; [| split; [done | by left]].
    unfold bind, ret. by rewrite log_comment_run.
  - destruct (IH (q / inject_Z 1024)%Q st) as [Hnone | (k & u & Hk & Hrun & Hlt & Hprev)].
    + by left.
    + right. exists (S k), u. rewrite !Nat.iter_succ_r.
      split; [done |]. split; [done |]. split; [done |]. right.
      destruct Hprev as [-> | (j & -> & Hj)].
      * by exists 0%nat.
      * exists (S j). by rewrite Nat.iter_succ_r.
Qed.

Lemma size_errors_omap root files :
  size_errors files = omap size_error (map (pair root) files).
Proof.
  induction files as [| af files IH]; [done |].
  rewrite size_errors_cons, IH. unfold size_errors, size_error.
  destruct af as [name [n | err]]; reflexivity.
Qed.

Lemma walk_size_errors (l : list (pathname * list (string * fsize))) :
  flat_map (λ rf, size_errors rf.2) l
  = omap size_error (flat_map (λ rf, map (pair rf.1) rf.2) l).
Proof.
  induction l as [| [root files] l IH]; [done |].
  cbn [flat_map fst snd]. by rewrite omap_app, IH, (size_errors_omap root).
Qed.

Lemma Qle_div_1024 q :
  Qltb q (inject_Z 1024) = false → (1 <= q / inject_Z 1024)%Q.
Proof.
  intros Hq. apply not_true_iff_false in Hq. rewrite Qltb_lt in Hq.
  apply Qnot_lt_le in Hq. apply Qle_shift_div_l; [reflexivity |].
  by rewrite Qmult_1_l.
Qed.

Lemma init_unfold path d st :
  init path d st =
  human (Z.of_nat (length (enumerated path d)))
        (inject_Z (Z.of_N (total_bytes (enumerated path d)))) units
        (add_effects st ([Comment (Msg "initialization..." [])]
                         ++ omap size_error (enumerated path d))).
Proof.
  unfold init. unfold bind at 1. rewrite log_comment_run.
  unfold bind at 1. rewrite init_loop_run, add_effects_app, walk_size_errors.
  reflexivity.
Qed.

(** [init], whatever the tree: the opening comment, one error for each
    enumerated file whose size cannot be read, and then either nothing
    and [None], or the comment with the count and the scaled size and the
    count. *)
Lemma init_run path d st :
  let files := enumerated path d in
  let count := Z.of_nat (length files) in
  let total := total_bytes files in
  let log := [Comment (Msg "initialization..." [])] ++ omap size_error files in
  (1024 ^ 5 ≤ Z.of_N total
   ∧ init path d st = (Ret PyNone, add_effects st log))
  ∨ (Z.of_N total < 1024 ^ 5
     ∧ ∃ k unit,
         units !! k = Some unit
         ∧ init path d st =
           (Ret (PyInt count),
            add_effects st (log ++ [size_comment count (scaled total k) unit]))
         ∧ (scaled total k < inject_Z 1024)%Q
         ∧ (k = 0%nat ∨ (1 <= scaled total k)%Q)).
Proof.
  cbv zeta. rewrite init_unfold.
  set (files := enumerated path d). set (st1 := add_effects st _).
  pose proof (human_units (Z.of_nat (length files)) ["KiB"; "MiB"; "GiB"; "TiB"]
                "bytes" (inject_Z (Z.of_N (total_bytes files))) st1) as Hval.
  rewrite Qltb_inject in Hval. fold units in Hval.
  change (1024 ^ Z.of_nat (S (length ["KiB"; "MiB"; "GiB"; "TiB"]))) with (1024 ^ 5) in Hval.
  destruct (human_cases (Z.of_nat (length files)) units
              (inject_Z (Z.of_N (total_bytes files))) st1)
    as [Hnone | (k & unit & Hk & Hrun & Hlt & Hprev)].
  - left. rewrite Hnone in *. cbn [fst] in Hval. split; [| done].
    destruct (Z.of_N (total_bytes files) <? 1024 ^ 5) eqn:Hcmp; [done |].
    by apply Z.ltb_ge.
  - right. rewrite Hrun in *. cbn [fst] in Hval. split.
    { destruct (Z.of_N (total_bytes files) <? 1024 ^ 5) eqn:Hcmp; [| done].
      by apply Z.ltb_lt. }
    exists k, unit. subst st1. rewrite add_effects_app.
    split; [done |]. split; [done |]. split.
    + by apply Qltb_lt.
    + destruct Hprev as [-> | (j & -> & Hj)]; [by left | right].
      unfold scaled. cbn [Nat.iter]. by apply Qle_div_1024.
Qed.

(** X6: a file whose size cannot be read does not stop the sizing pass:
    it is counted like the others, it adds nothing to the total, and the
    log gets one error for it, with the text of the failure and the name
    of the file, in the order of the walk. [init] logs nothing else
    between its opening comment and its closing one, and it leaves the
    hash set, the key and the regex as they are. *)
Theorem init_counts_unsized_files path d st :
  let files := enumerated path d in
  ∃ closing,
    effects (init path d st).2 =
      effects st ++ [Comment (Msg "initialization..." [])]
      ++ omap size_error files ++ closing
    ∧ (closing = []
       ∨ ∃ readable unit,
           closing = [size_comment (Z.of_nat (length files)) readable unit])
    ∧ HASHES (init path d st).2 = HASHES st
    ∧ HASH_KEY (init path d st).2 = HASH_KEY st
    ∧ HASH_REGEX (init path d st).2 = HASH_REGEX st.
Proof.
  cbv zeta.
  destruct (init_run path d st) as [[_ Hrun] | (_ & k & unit & _ & Hrun & _)];
    rewrite Hrun; cbn [snd]; unfold add_effects; cbn [effects HASHES HASH_KEY HASH_REGEX].
  - exists []. rewrite app_nil_r. split; [done |]. split; [by left | done].
  - eexists. rewrite <- !app_assoc. split; [done |].
    split; [right; by eexists _, _ | done].
Qed.

(** X7: when the total is below 1024^5 bytes, the size that [init] logs
    is the total divided by 1024 as many times as the position of the
    unit in bytes, KiB, MiB, GiB, TiB says; it is below 1024, and it is
    at least 1 unless the unit is bytes. *)
Theorem init_scales_size path d st :
  let files := enumerated path d in
  Z.of_N (total_bytes files) < 1024 ^ 5 →
  ∃ k unit,
    units !! k = Some unit
    ∧ last (effects (init path d st).2)
      = Some (size_comment (Z.of_nat (length files))
                           (scaled (total_bytes files) k) unit)
    ∧ (scaled (total_bytes files) k < inject_Z 1024)%Q
    ∧ (k = 0%nat ∨ (1 <= scaled (total_bytes files) k)%Q).
Proof.
  cbv zeta. intros Hlt.
  destruct (init_run path d st) as [[Hge _] | (_ & k & unit & Hk & Hrun & Hb1 & Hb2)];
    [lia |].
  exists k, unit. rewrite Hrun. cbn [snd]. unfold add_effects. cbn [effects].
  split; [done |]. split; [| done].
  by rewrite !app_assoc, last_snoc.
Qed.


(** *** The dispatch pass, in full *)

Lemma scan_trace_nil b bc : 0 ≤ bc < Z.max 1 b → scan_trace [] b bc bc [].
Proof. intros Hbc. unfold scan_trace. simpl. repeat split; lia. Qed.

Lemma scan_trace_app files1 files2 b bc bc1 bc2 es1 es2 :
  scan_trace files1 b bc bc1 es1 → scan_trace files2 b bc1 bc2 es2 →
  scan_trace (files1 ++ files2) b bc bc2 (es1 ++ es2).
Proof.
  intros (Hd1 & He1 & Hs1 & Hb1 & Hm1) (Hd2 & He2 & Hs2 & Hb2 & Hm2).
  unfold scan_trace, dofile_calls, encrypted_notices, secret_findings, bar_marks in *.
  rewrite !omap_app, !length_app, !Nat2Z.inj_add.
  rewrite Hd1, Hd2, He1, He2, Hs1, Hs2.
  split; [done |]. split; [done |]. split; [done |]. split; [done |].
  rewrite Z.mul_add_distr_r. lia.
Qed.

Lemma scan_file_trace b root af scanned bc st :
  0 ≤ bc < Z.max 1 b →
  ∃ bc' es,
    scan_file b root af (scanned, bc) st =
      (Ret (scanned + Z.of_nat (length (omap scanner_call [(root, af)])), bc'),
       add_effects st es)
    ∧ scan_trace [(root, af)] b bc bc' es.
Proof.
  intros Hbc. unfold scan_file, scan_trace. cbn [omap list_omap].
  unfold scanner_call, encrypted_notice, filename_finding.
  cbn [fst snd]. unfold bind, perform, ret.
  destruct (infilename_search (PyStr.lower af.1)) as [found |];
    destruct (type_file (abspath (root ++ [af.1]))) as [t [|]];
    cbn [andb negb]; try destruct (bool_decide (t ∈ ENCRYPTED));
    cbn [andb negb]; try destruct (b <=? bc + 1) eqn:Hb;
    cbn [length]; rewrite ?emit_add, ?add_effects_app, ?Z.add_0_r;
    try apply Z.leb_le in Hb; try apply Z.leb_gt in Hb;
    first [ eexists _, _; split; [reflexivity |]; simpl;
            repeat (split; [try done; lia |]); lia
          | exists bc, []; rewrite add_effects_nil; split; [reflexivity |]; simpl;
            repeat (split; [try done; lia |]); lia ].
Qed.

Lemma scan_files_trace b root files : ∀ scanned bc st,
  0 ≤ bc < Z.max 1 b →
  ∃ bc' es,
    for_each files (scan_file b root) (scanned, bc) st =
      (Ret (scanned
            + Z.of_nat (length (omap scanner_call (map (pair root) files))), bc'),
       add_effects st es)
    ∧ scan_trace (map (pair root) files) b bc bc' es.
Proof.
  induction files as [| af files IH]; intros scanned bc st Hbc.
  - exists bc, []. simpl. unfold ret. rewrite add_effects_nil, Z.add_0_r.
    split; [done |]. by apply scan_trace_nil.
  - destruct (scan_file_trace b root af scanned bc st Hbc)
      as (bc1 & es1 & Hrun1 & Ht1).
    assert (0 ≤ bc1 < Z.max 1 b) as Hbc1 by apply Ht1.
    destruct (IH (scanned + Z.of_nat (length (omap scanner_call [(root, af)])))
                 bc1 (add_effects st es1) Hbc1) as (bc2 & es2 & Hrun2 & Ht2).
    exists bc2, (es1 ++ es2). cbn [for_each]. unfold bind.
    rewrite Hrun1, Hrun2, add_effects_app.
    change (map (pair root) (af :: files))
      with ([(root, af)] ++ map (pair root) files).
    split; [| by eapply scan_trace_app].
    by rewrite omap_app, length_app, Nat2Z.inj_add, Z.add_assoc.
Qed.

Lemma scan_walk_trace b (l : list (pathname * list (string * fsize))) :
  ∀ scanned bc st,
  0 ≤ bc < Z.max 1 b →
  ∃ bc' es,
    for_each l (λ rf acc, for_each rf.2 (scan_file b rf.1) acc) (scanned, bc) st =
      (Ret (scanned
            + Z.of_nat (length (omap scanner_call
                                     (flat_map (λ rf, map (pair rf.1) rf.2) l))),
            bc'),
       add_effects st es)
    ∧ scan_trace (flat_map (λ rf, map (pair rf.1) rf.2) l) b bc bc' es.
Proof.
  induction l as [| [root files] l IH]; intros scanned bc st Hbc.
  - exists bc, []. simpl. unfold ret. rewrite add_effects_nil, Z.add_0_r.
    split; [done |]. by apply scan_trace_nil.
  - destruct (scan_files_trace b root files scanned bc st Hbc)
      as (bc1 & es1 & Hrun1 & Ht1).
    assert (0 ≤ bc1 < Z.max 1 b) as Hbc1 by apply Ht1.
    destruct (IH (scanned
                  + Z.of_nat (length (omap scanner_call (map (pair root) files))))
                 bc1 (add_effects st es1) Hbc1) as (bc2 & es2 & Hrun2 & Ht2).
    exists bc2, (es1 ++ es2). cbn [for_each flat_map fst snd]. unfold bind.
    rewrite Hrun1, Hrun2, add_effects_app.
    split; [| by eapply scan_trace_app].
    by rewrite omap_app, length_app, Nat2Z.inj_add, Z.add_assoc.
Qed.

(** [scan] with a count: the opening comment and the empty bar, the
    effects of the loop, the newline and the closing comment. *)
Lemma scan_full path c d st :
  let processed := Z.of_nat (length (omap scanner_call (enumerated path d))) in
  ∃ bc es,
    scan path (PyInt c) d st =
      (Ret (PyInt processed),
       add_effects st
         ([Comment (Msg "scanning files..." []);
           Stdout ("[" +:+ times " " 33 +:+ "]");
           Stdout (times backspace 34)]
          ++ es
          ++ [Stdout (String PyStr.newline EmptyString);
              Comment (Msg "%d files supported have been processed"
                           [AInt processed])]))
    ∧ scan_trace (enumerated path d) (c `div` 32) 0 bc es.
Proof.
  cbv zeta.
  assert (0 ≤ 0 < Z.max 1 (c `div` 32)) as Hbc by lia.
  unfold scan, scan_loop, int_div.
  unfold bind at 1. rewrite log_comment_run.
  unfold bind at 1. rewrite perform_run, add_effects_app.
  unfold bind at 1. rewrite perform_run, add_effects_app.
  unfold bind at 1. unfold ret at 1.
  match goal with |- context [bind (for_each _ _ _) _ ?s] =>
    destruct (scan_walk_trace (c `div` 32) (walk [path] d) 0 0 s Hbc)
      as (bc & es & Hrun & Htrace)
  end.
  exists bc, es. split; [| exact Htrace].
  unfold bind at 1. rewrite Hrun, add_effects_app.
  unfold bind at 1. rewrite perform_run, add_effects_app.
  unfold bind at 1. rewrite log_comment_run, add_effects_app.
  unfold ret, enumerated. rewrite Z.add_0_l, <- !app_assoc. reflexivity.
Qed.


Lemma bar_marks_app es1 es2 : bar_marks (es1 ++ es2) = bar_marks es1 ++ bar_marks es2.
Proof. apply omap_app. Qed.

Lemma secret_findings_app es1 es2 :
  secret_findings (es1 ++ es2) = secret_findings es1 ++ secret_findings es2.
Proof. apply omap_app. Qed.

Lemma in_secret_findings what p es :
  In (Secret what p) es ↔ In (what, p) (secret_findings es).
Proof.
  unfold secret_findings. rewrite <- !list_elem_of_In, list_elem_of_omap. split.
  - intros Hin. by exists (Secret what p).
  - intros (e & Hin & He). destruct e; try done. by injection He as -> ->.
Qed.

Lemma classification_partition (l : list (pathname * (string * fsize))) :
  length l =
  (length (omap scanner_call l) + length (omap encrypted_notice l)
   + length (List.filter unsupported l))%nat.
Proof.
  induction l as [| rf l IH]; [done |].
  cbn [omap list_omap List.filter length].
  unfold scanner_call at 1, encrypted_notice at 1, unsupported at 1.
  destruct (type_file (abspath (rf.1 ++ [rf.2.1]))) as [t [|]]; cbn [snd negb andb];
    [destruct (bool_decide (t ∈ ENCRYPTED)) |]; cbn [negb length];
    fold (omap scanner_call l) (omap encrypted_notice l); lia.
Qed.

(** X8: the filename check does not depend on the classification: every
    enumerated file whose lower-cased name matches the filename pattern
    is logged as a secret, with the text of the match and the absolute
    path, also when its type is not supported or encrypted; [scan] logs
    these findings in the order of the walk and no other. *)
Theorem filename_findings_independent path c d st :
  ∃ es,
    (scan path (PyInt c) d st).2 = add_effects st es
    ∧ secret_findings es = omap filename_finding (enumerated path d)
    ∧ ∀ root af found,
        In (root, af) (enumerated path d) →
        infilename_search (PyStr.lower af.1) = Some found →
        In (Secret found (abspath (root ++ [af.1]))) es.
Proof.
  destruct (scan_full path c d st) as (bc & es & Hrun & _ & _ & Hs & _).
  match type of Hrun with _ = (_, add_effects _ ?full) => exists full end.
  rewrite Hrun. cbn [snd]. split; [reflexivity |].
  assert (secret_findings
            ([Comment (Msg "scanning files..." []);
              Stdout ("[" +:+ times " " 33 +:+ "]"); Stdout (times backspace 34)]
             ++ es
             ++ [Stdout (String PyStr.newline EmptyString);
                 Comment (Msg "%d files supported have been processed"
                            [AInt (Z.of_nat (length (omap scanner_call
                                                         (enumerated path d))))])])
          = omap filename_finding (enumerated path d)) as Hall.
  { rewrite !secret_findings_app, Hs. simpl. by rewrite app_nil_r. }
  split; [exact Hall |].
  intros root af found Hin Hmatch. apply in_secret_findings. rewrite Hall.
  apply list_elem_of_In, list_elem_of_omap. exists (root, af).
  split; [by apply list_elem_of_In |].
  unfold filename_finding. cbn [fst snd]. by rewrite Hmatch.
Qed.

(** X9: the progress bar gets one cell for every [count/32] processed
    files, and one for every processed file when [count] is below 64: the
    number of [=] written is the number of processed files divided by the
    larger of 1 and [count/32]. *)
Theorem progress_bar_cells path c d st :
  let processed := Z.of_nat (length (omap scanner_call (enumerated path d))) in
  ∃ es,
    (scan path (PyInt c) d st).2 = add_effects st es
    ∧ Z.of_nat (length (bar_marks es)) = processed `div` Z.max 1 (c `div` 32)
    ∧ (c < 64 → Z.of_nat (length (bar_marks es)) = processed).
Proof.
  cbv zeta.
  destruct (scan_full path c d st) as (bc & es & Hrun & _ & _ & _ & Hbc & Hmarks).
  match type of Hrun with _ = (_, add_effects _ ?full) => exists full end.
  rewrite Hrun. cbn [snd]. split; [reflexivity |].
  rewrite !bar_marks_app. simpl (bar_marks [_; _; _]). simpl (bar_marks [_; _]).
  rewrite app_nil_l, app_nil_r.
  assert (Z.of_nat (length (bar_marks es))
          = Z.of_nat (length (omap scanner_call (enumerated path d)))
            `div` Z.max 1 (c `div` 32)) as Hdiv.
  { apply (Z.div_unique_pos _ _ _ bc); [done |]. lia. }
  split; [exact Hdiv |]. intros Hc. rewrite Hdiv.
  assert (c `div` 32 ≤ 1) by (apply Z.lt_succ_r, Z.div_lt_upper_bound; lia).
  replace (Z.max 1 (c `div` 32)) with 1 by lia. apply Z.div_1_r.
Qed.

Lemma classified_app es1 es2 :
  classified (es1 ++ es2) = classified es1 ++ classified es2.
Proof. apply omap_app. Qed.

(** The three ways in which a file is dealt with exclude each other. *)
Lemma disposition_cases rf :
  (∃ t p, disposition rf = Some (DoFile t p)
          ∧ scanner_call rf = Some (t, p)
          ∧ encrypted_notice rf = None ∧ unsupported rf = false)
  ∨ (∃ t afile, disposition rf = Some (Encrypted t afile)
                ∧ encrypted_notice rf = Some (t, afile)
                ∧ scanner_call rf = None ∧ unsupported rf = false)
  ∨ (disposition rf = None
     ∧ scanner_call rf = None ∧ encrypted_notice rf = None
     ∧ unsupported rf = true).
Proof.
  unfold disposition, scanner_call, encrypted_notice, unsupported.
  destruct (type_file (abspath (rf.1 ++ [rf.2.1]))) as [t [|]]; cbn [snd negb andb].
  - destruct (bool_decide (t ∈ ENCRYPTED)); cbn [negb].
    + right. left. by exists t, rf.2.1.
    + left. by eexists t, _.
  - right. by right.
Qed.

Lemma scan_file_classified b root af acc st :
  ∃ acc' es,
    scan_file b root af acc st = (Ret acc', add_effects st es)
    ∧ classified es = omap disposition [(root, af)].
Proof.
  destruct acc as [scanned bc].
  unfold scan_file, disposition. cbn [omap list_omap fst snd].
  unfold bind, perform, ret.
  destruct (infilename_search (PyStr.lower af.1)) as [found |];
    destruct (type_file (abspath (root ++ [af.1]))) as [t [|]];
    try destruct (bool_decide (t ∈ ENCRYPTED));
    try destruct (b <=? bc + 1);
    rewrite ?emit_add, ?add_effects_app;
    first [ eexists _, _; split; [reflexivity |]; reflexivity
          | eexists _, []; rewrite add_effects_nil; split; reflexivity ].
Qed.

Lemma scan_files_classified b root files : ∀ acc st,
  ∃ acc' es,
    for_each files (scan_file b root) acc st = (Ret acc', add_effects st es)
    ∧ classified es = omap disposition (map (pair root) files).
Proof.
  induction files as [| af files IH]; intros acc st.
  - exists acc, []. simpl. unfold ret. by rewrite add_effects_nil.
  - destruct (scan_file_classified b root af acc st) as (acc1 & es1 & Hrun1 & Hc1).
    destruct (IH acc1 (add_effects st es1)) as (acc2 & es2 & Hrun2 & Hc2).
    exists acc2, (es1 ++ es2). cbn [for_each]. unfold bind.
    rewrite Hrun1, Hrun2, add_effects_app. split; [done |].
    change (map (pair root) (af :: files))
      with ([(root, af)] ++ map (pair root) files).
    by rewrite classified_app, omap_app, Hc1, Hc2.
Qed.

Lemma scan_walk_classified b (l : list (pathname * list (string * fsize))) :
  ∀ acc st,
  ∃ acc' es,
    for_each l (λ rf acc, for_each rf.2 (scan_file b rf.1) acc) acc st =
      (Ret acc', add_effects st es)
    ∧ classified es = omap disposition (flat_map (λ rf, map (pair rf.1) rf.2) l).
Proof.
  induction l as [| [root files] l IH]; intros acc st.
  - exists acc, []. simpl. unfold ret. by rewrite add_effects_nil.
  - destruct (scan_files_classified b root files acc st)
      as (acc1 & es1 & Hrun1 & Hc1).
    destruct (IH acc1 (add_effects st es1)) as (acc2 & es2 & Hrun2 & Hc2).
    exists acc2, (es1 ++ es2). cbn [for_each flat_map fst snd]. unfold bind.
    rewrite Hrun1, Hrun2, add_effects_app. split; [done |].
    by rewrite classified_app, omap_app, Hc1, Hc2.
Qed.

Lemma scan_classified path c d st :
  ∃ es,
    (scan path (PyInt c) d st).2 = add_effects st es
    ∧ classified es = omap disposition (enumerated path d).
Proof.
  unfold scan, scan_loop, int_div.
  unfold bind at 1. rewrite log_comment_run.
  unfold bind at 1. rewrite perform_run, add_effects_app.
  unfold bind at 1. rewrite perform_run, add_effects_app.
  unfold bind at 1. unfold ret at 1.
  match goal with |- context [bind (for_each _ _ _) _ ?s] =>
    destruct (scan_walk_classified (c `div` 32) (walk [path] d) (0, 0) s)
      as ([scanned bc] & es & Hrun & Hc)
  end.
  unfold bind at 1. rewrite Hrun, add_effects_app.
  unfold bind at 1. rewrite perform_run, add_effects_app.
  unfold bind at 1. rewrite log_comment_run, add_effects_app.
  unfold ret. cbn [snd].
  eexists. split; [reflexivity |].
  rewrite !classified_app, Hc. simpl. by rewrite !app_nil_r.
Qed.

(** X10: [scan] deals with every enumerated file in exactly one way. The
    calls of the content scanner and the encrypted notices that it makes
    are, in the order in which it makes them, what the files of the walk
    get one by one: a supported file of a type that is not encrypted gets
    one call of the scanner, a supported file of an encrypted type gets
    one notice, and a file that is not supported gets neither; no file
    gets both. The count handed back is the number of calls of the
    content scanner, and it is at most the count that [init] hands back
    for the same tree. *)
Theorem scan_partitions_files path c d st :
  ∃ es,
    scan path (PyInt c) d st
      = (Ret (PyInt (Z.of_nat (length (dofile_calls es)))), add_effects st es)
    ∧ classified es = omap disposition (enumerated path d)
    ∧ (∀ rf,
         (∃ t p, disposition rf = Some (DoFile t p)
                 ∧ scanner_call rf = Some (t, p)
                 ∧ encrypted_notice rf = None ∧ unsupported rf = false)
         ∨ (∃ t afile, disposition rf = Some (Encrypted t afile)
                       ∧ encrypted_notice rf = Some (t, afile)
                       ∧ scanner_call rf = None ∧ unsupported rf = false)
         ∨ (disposition rf = None
            ∧ scanner_call rf = None ∧ encrypted_notice rf = None
            ∧ unsupported rf = true))
    ∧ dofile_calls es = omap scanner_call (enumerated path d)
    ∧ encrypted_notices es = omap encrypted_notice (enumerated path d)
    ∧ length (enumerated path d) =
      (length (dofile_calls es) + length (encrypted_notices es)
       + length (List.filter unsupported (enumerated path d)))%nat
    ∧ ∀ st0 n, (init path d st0).1 = Ret (PyInt n) →
               Z.of_nat (length (dofile_calls es)) ≤ n.
Proof.
  destruct (scan_full path c d st) as (bc & es & Hrun & Hd & He & _).
  destruct (scan_classified path c d st) as (full' & Hrun' & Hc).
  match type of Hrun with _ = (_, add_effects _ ?full) => set (full0 := full) in * end.
  assert (full' = full0) as ->.
  { rewrite Hrun in Hrun'. cbn [snd] in Hrun'.
    apply (f_equal effects) in Hrun'. unfold add_effects in Hrun'.
    cbn [effects] in Hrun'. by apply app_inv_head in Hrun'. }
  assert (dofile_calls full0 = omap scanner_call (enumerated path d)) as Hd0.
  { subst full0. rewrite !dofile_calls_app, Hd. simpl. by rewrite app_nil_r. }
  assert (encrypted_notices full0 = omap encrypted_notice (enumerated path d))
    as He0.
  { subst full0. rewrite !encrypted_notices_app, He. simpl. by rewrite app_nil_r. }
  exists full0. rewrite Hrun, Hd0, He0.
  split; [reflexivity |]. split; [exact Hc |].
  split; [exact disposition_cases |]. split; [reflexivity |]. split; [reflexivity |].
  pose proof (classification_partition (enumerated path d)) as Hpart.
  split; [exact Hpart |]. intros st0 n Hinit.
  destruct (init_run path d st0) as [[_ Hrun0] | (_ & k & unit & _ & Hrun0 & _)];
    rewrite Hrun0 in Hinit; cbn [fst] in Hinit; [done |].
  injection Hinit as <-. lia.
Qed.


(** *** The run, in full *)

Lemma dofile_calls_size_errors (l : list (pathname * (string * fsize))) :
  dofile_calls (omap size_error l) = [].
Proof.
  induction l as [| rf l IH]; [done |]. cbn [omap list_omap].
  unfold size_error at 1. by destruct (rf.2.2).
Qed.

Lemma farewell_not_size_error (l : list (pathname * (string * fsize))) :
  ¬ In farewell (omap size_error l).
Proof.
  intros Hin. apply list_elem_of_In, list_elem_of_omap in Hin as (rf & _ & Hrf).
  unfold size_error in Hrf. by destruct (rf.2.2).
Qed.

(** What [run] does once the hash list is dealt with: the sizing pass, the
    scan, the tally and [bye]; or, from 1024^5 bytes on, the sizing pass
    and the [TypeError] of [scan]. *)
Lemma scan_phase w path st :
  let d := w_tree w path in
  let files := enumerated path d in
  let phase := finish w path in
  (Z.of_N (total_bytes files) < 1024 ^ 5
   ∧ ∃ es, phase st =
             (Exit 1,
              add_effects st
                (es ++ [Comment (Msg ("%d files or strings flagged as "
                                      +:+ PyStr.dquote +:+ "secret" +:+ PyStr.dquote)
                                     [AInt (Z.of_nat (PyStr.occurrences "SECRET,"
                                              (w_log_text w (effects st ++ es))))]);
                        farewell]))
           ∧ dofile_calls es = omap scanner_call files)
  ∨ (1024 ^ 5 ≤ Z.of_N (total_bytes files)
     ∧ ∃ es, phase st = (Raise TypeError, add_effects st es)
             ∧ dofile_calls es = []
             ∧ ¬ In farewell es).
Proof.
  cbv zeta. unfold finish.
  destruct (init_run path (w_tree w path) st)
    as [[Hge Hinit] | (Hlt & k & unit & _ & Hinit & _)].
  - right. split; [done |]. unfold bind at 1. rewrite Hinit.
    unfold scan, int_div.
    unfold bind at 1. unfold bind at 1. rewrite log_comment_run.
    unfold bind at 1. rewrite perform_run, add_effects_app.
    unfold bind at 1. rewrite perform_run, add_effects_app.
    unfold bind, raise. rewrite add_effects_app.
    eexists. split; [reflexivity |]. split.
    + rewrite !dofile_calls_app, dofile_calls_size_errors. reflexivity.
    + intros Hin. apply in_app_or in Hin as [Hin | Hin].
      * apply in_app_or in Hin as [[Hin | []] | Hin]; [done |].
        by apply farewell_not_size_error in Hin.
      * simpl in Hin. by destruct Hin as [Hin | [Hin | [Hin | []]]].
  - left. split; [done |]. unfold bind at 1. rewrite Hinit.
    match goal with |- context [bind (scan _ _ _) _ ?s] =>
      destruct (scan_full path (Z.of_nat (length (enumerated path (w_tree w path))))
                  (w_tree w path) s) as (bc & es & Hscan & Hd & _)
    end.
    unfold bind at 1. rewrite Hscan, add_effects_app.
    unfold bind at 1. unfold get_state at 1.
    unfold bind at 1. unfold count_secrets at 1.
    unfold bind at 1. rewrite log_comment_run, add_effects_app.
    unfold ret at 1. rewrite bye_run, add_effects_app, count_marker.
    match goal with
    | |- context [w_log_text w (effects (add_effects st ?e))] => exists e
    end.
    split.
    + do 2 f_equal. symmetry. apply (app_assoc _ [_] [_]).
    + rewrite !dofile_calls_app, dofile_calls_size_errors, Hd. simpl.
      by rewrite !app_nil_r.
Qed.

Lemma run_phase w path hashesfile st :
  run w path hashesfile st =
  bind (if negb (String.eqb hashesfile "")
        then get_hashes hashesfile (w_getpass w) (w_open w hashesfile)
        else ret tt)
       (λ _, finish w path)
       (started w st).
Proof.
  unfold run, banner. unfold bind at 1. rewrite perform_run.
  unfold bind at 1. rewrite log_comment_run, add_effects_app. reflexivity.
Qed.

Lemma get_hashes_outcome hashesfile pwd content st :
  (get_hashes hashesfile pwd content st).1 = Exit 1
  ∨ (get_hashes hashesfile pwd content st).1 = Ret tt.
Proof.
  destruct (artifact_fields_cases content) as [Hlen | (salt & verifier & Hf)].
  - rewrite get_hashes_parse_failure by done. by left.
  - rewrite (get_hashes_split _ _ _ _ _ _ Hf). cbv zeta.
    destruct (failed _ _ _ _ _); [by left | by right].
Qed.

Lemma finish_outcome w path st :
  (finish w path st).1 = Exit 1 ∨ (finish w path st).1 = Raise TypeError.
Proof.
  destruct (scan_phase w path st) as [(_ & es & Hrun & _) | (_ & es & Hrun & _)];
    cbv zeta in Hrun; rewrite Hrun; [by left | by right].
Qed.

Lemma run_outcome w path hashesfile st :
  (run w path hashesfile st).1 = Exit 1
  ∨ (run w path hashesfile st).1 = Raise TypeError.
Proof.
  rewrite run_phase. unfold bind.
  destruct (negb (String.eqb hashesfile "")).
  - pose proof (get_hashes_outcome hashesfile (w_getpass w) (w_open w hashesfile)
                  (started w st)) as Hout.
    destruct (get_hashes hashesfile (w_getpass w) (w_open w hashesfile) (started w st))
      as [[[] | code | e] s]; cbn [fst] in *.
    + apply finish_outcome.
    + destruct Hout as [Hc | Hc]; [| done]. left. by injection Hc as ->.
    + by destruct Hout.
  - unfold ret. apply finish_outcome.
Qed.

Lemma last_farewell (l : list effect) x : last (l ++ [x; farewell]) = Some farewell.
Proof.
  change [x; farewell] with ([x] ++ [farewell]).
  by rewrite app_assoc, last_snoc.
Qed.

Lemma reports_nil pwd regex salt verifier lines :
  failed pwd regex salt verifier lines = false →
  reports pwd regex salt verifier lines = [].
Proof.
  unfold failed, reports, verifier_report, regex_report.
  intros [[Hm Hre]%orb_false_elim Hlines]%orb_false_elim.
  apply negb_false_iff in Hre. by rewrite Hm, Hre, line_reports_nil.
Qed.

(** [sys.exit] is called by [bye] only. *)
Lemma get_hashes_exit hashesfile pwd content st code :
  (get_hashes hashesfile pwd content st).1 = Exit code →
  code = 1 ∧ last (effects (get_hashes hashesfile pwd content st).2) = Some farewell.
Proof.
  destruct (artifact_fields_cases content) as [Hlen | (salt & verifier & Hf)].
  - rewrite get_hashes_parse_failure by done. cbn [fst snd]. intros [= <-].
    split; [done |]. unfold add_effects. cbn [effects].
    rewrite !app_assoc. apply last_farewell.
  - rewrite (get_hashes_split _ _ _ _ _ _ Hf). cbv zeta.
    destruct (failed _ _ _ _ _); cbn [fst snd]; [| done]. intros [= <-].
    split; [done |]. unfold add_effects, closing_failure. cbn [effects].
    rewrite !app_assoc. apply last_farewell.
Qed.

Lemma finish_exit w path st code :
  (finish w path st).1 = Exit code →
  code = 1 ∧ last (effects (finish w path st).2) = Some farewell.
Proof.
  destruct (scan_phase w path st) as [(_ & es & Hrun & _) | (_ & es & Hrun & _)];
    cbv zeta in Hrun; rewrite Hrun; cbn [fst snd]; [| done]. intros [= <-].
  split; [done |]. unfold add_effects. cbn [effects].
  rewrite !app_assoc. apply last_farewell.
Qed.

Lemma run_exit w path hashesfile st code :
  (run w path hashesfile st).1 = Exit code →
  code = 1 ∧ last (effects (run w path hashesfile st).2) = Some farewell.
Proof.
  rewrite run_phase. unfold bind.
  destruct (negb (String.eqb hashesfile "")).
  - pose proof (get_hashes_exit hashesfile (w_getpass w) (w_open w hashesfile)
                  (started w st)) as Hexit.
    destruct (get_hashes hashesfile (w_getpass w) (w_open w hashesfile) (started w st))
      as [[[] | code' | e] s]; cbn [fst snd] in *.
    + apply finish_exit.
    + intros [= <-]. by apply Hexit.
    + done.
  - unfold ret. apply finish_exit.
Qed.

(** X11: [main] never ends with status 0. When it hands back a value, the
    value is 1, and this is what it does after a usage error and only
    then, a usage error being that there is no argument or that a path
    given does not exist; the globals are then untouched and the content
    scanner is not called. When the process is left through [sys.exit],
    the status is 1 and the farewell of [bye] is the last thing that
    happened. *)
Theorem main_never_succeeds w args st :
  let usage_error :=
    match args with
    | [] => True
    | path :: more =>
        w_exists w path = false
        ∨ ∃ hashesfile rest, more = hashesfile :: rest
                             ∧ w_exists w hashesfile = false
    end in
  let r := main w args st in
  (usage_error → r.1 = Ret (PyInt 1)
                 ∧ HASHES r.2 = HASHES st ∧ HASH_KEY r.2 = HASH_KEY st
                 ∧ HASH_REGEX r.2 = HASH_REGEX st
                 ∧ dofile_calls (effects r.2) = dofile_calls (effects st))
  ∧ (∀ v, r.1 = Ret v → v = PyInt 1 ∧ usage_error)
  ∧ (∀ code, r.1 = Exit code → code = 1 ∧ last (effects r.2) = Some farewell).
Proof.
  cbv zeta. unfold main. destruct args as [| path more].
  - unfold bind, usage, ret. rewrite perform_run. cbn [fst snd].
    split; [| split].
    + intros _. unfold add_effects. cbn [HASHES HASH_KEY HASH_REGEX effects].
      rewrite dofile_calls_app. simpl. by rewrite app_nil_r.
    + by intros v [= <-].
    + done.
  - destruct (w_exists w path) eqn:Hpath; cbn [negb].
    + destruct more as [| hashesfile rest].
      * split; [intros [? | (? & ? & ? & _)]; done |]. split.
        -- intros v Hv. by destruct (run_outcome w path "" st) as [Ho | Ho];
             rewrite Ho in Hv.
        -- apply run_exit.
      * destruct (w_exists w hashesfile) eqn:Hfile; cbn [negb].
        -- split; [| split].
           ++ intros [? | (h & l & Heq & Hh)]; [done |].
              injection Heq as <- <-. congruence.
           ++ intros v Hv. by destruct (run_outcome w path hashesfile st) as [Ho | Ho];
                rewrite Ho in Hv.
           ++ apply run_exit.
        -- unfold bind, usage, ret. rewrite !perform_run. cbn [fst snd].
           split; [| split].
           ++ intros _. unfold add_effects.
              cbn [HASHES HASH_KEY HASH_REGEX effects].
              rewrite !dofile_calls_app. simpl. by rewrite !app_nil_r.
           ++ intros v [= <-]. split; [done |]. right. by eexists _, _.
           ++ done.
    + unfold bind, usage, ret. rewrite !perform_run. cbn [fst snd].
      split; [| split].
      * intros _. unfold add_effects. cbn [HASHES HASH_KEY HASH_REGEX effects].
        rewrite !dofile_calls_app. simpl. by rewrite !app_nil_r.
      * intros v [= <-]. split; [done |]. by left.
      * done.
Qed.


Lemma main_without_hashes w path st :
  w_exists w path = true → main w [path] st = run w path "" st.
Proof. intros Hp. unfold main. by rewrite Hp. Qed.

Lemma run_without_hashes w path st :
  run w path "" st = finish w path (started w st).
Proof. rewrite run_phase. reflexivity. Qed.

(** With accepted arguments [main] gets to the sizing pass; until then the
    content scanner has not been called and [bye] has not been reached. *)
Lemma main_reaches_finish w path more st :
  accepted w (path :: more) st →
  ∃ s es0,
    main w (path :: more) st = finish w path s
    ∧ effects s = effects st ++ es0
    ∧ dofile_calls es0 = []
    ∧ ¬ In farewell es0.
Proof.
  intros [Hpath Hmore]. unfold main. rewrite Hpath. cbn [negb].
  assert (∃ es0, effects (started w st) = effects st ++ es0
                 ∧ dofile_calls es0 = [] ∧ ¬ In farewell es0) as Hstarted.
  { eexists. split; [reflexivity |]. split; [reflexivity |].
    intros Hin. simpl in Hin. by destruct Hin as [Hin | [Hin | []]]. }
  destruct more as [| hashesfile rest].
  { rewrite run_without_hashes. destruct Hstarted as (es0 & Hes0).
    by exists (started w st), es0. }
  destruct Hmore as [Hfile Hok]. rewrite Hfile. cbn [negb]. rewrite run_phase.
  destruct (String.eqb hashesfile "") eqn:Heq; cbn [negb].
  { unfold bind, ret. destruct Hstarted as (es0 & Hes0).
    by exists (started w st), es0. }
  assert ((get_hashes hashesfile (w_getpass w) (w_open w hashesfile)
             (started w st)).1 = Ret tt) as Hret.
  { destruct Hok as [-> | Hok]; [done | exact Hok]. }
  clear Hok Hstarted. unfold bind.
  destruct (artifact_fields_cases (w_open w hashesfile))
    as [Hlen | (salt & verifier & Hf)].
  { by rewrite get_hashes_parse_failure in Hret. }
  rewrite (get_hashes_split _ _ _ _ _ _ Hf) in *. cbv zeta in *.
  destruct (failed _ _ _ _ _) eqn:Hfail; [done |]. cbn [fst snd].
  rewrite (reports_nil _ _ _ _ _ Hfail), app_nil_r.
  eexists _, ([Print (Msg flower [AStr PROGRAM; AStr version]);
               Comment (Msg "writing to %s"
                            [AStr (PROGRAM +:+ "-" +:+ w_timestamp w)])]
              ++ opening hashesfile
              ++ closing_success (map PyStr.strip (artifact_lines (w_open w hashesfile)))
                   (artifact_regex (w_open w hashesfile))).
  split; [reflexivity |]. split; [| split].
  - unfold add_effects, with_hashes. cbn [effects].
    rewrite effects_after_verifier. unfold started, add_effects. cbn [effects].
    by rewrite <- !app_assoc.
  - reflexivity.
  - intros Hin. simpl in Hin.
    by destruct Hin as [Hin | [Hin | [Hin | [Hin | [Hin | [Hin | [Hin | []]]]]]]].
Qed.

(** X12: a run without a hash list on a tree of less than 1024^5 bytes
    calls the content scanner once for each enumerated file that is
    supported and not encrypted, in the order of the walk, and then leaves
    through [bye] with status 1; the hash set, the key and the regex are
    never written. *)
Theorem complete_run_without_hashes w path st :
  let files := enumerated path (w_tree w path) in
  w_exists w path = true →
  Z.of_N (total_bytes files) < 1024 ^ 5 →
  let r := main w [path] st in
  r.1 = Exit 1
  ∧ dofile_calls (effects r.2) = dofile_calls (effects st) ++ omap scanner_call files
  ∧ last (effects r.2) = Some farewell
  ∧ HASHES r.2 = HASHES st ∧ HASH_KEY r.2 = HASH_KEY st
  ∧ HASH_REGEX r.2 = HASH_REGEX st.
Proof.
  cbv zeta. intros Hpath Hlt.
  rewrite main_without_hashes, run_without_hashes by done.
  destruct (scan_phase w path (started w st))
    as [(_ & es & Hrun & Hd) | (Hge & _)]; [| lia].
  cbv zeta in Hrun. rewrite Hrun. cbn [fst snd].
  unfold started, add_effects. cbn [HASHES HASH_KEY HASH_REGEX effects].
  split; [done |]. split; [| split; [| done]].
  - rewrite !dofile_calls_app, Hd. simpl. by rewrite !app_nil_r.
  - change (?a ++ [?x; farewell]) with (a ++ [x] ++ [farewell]).
    by rewrite !app_assoc, last_snoc.
Qed.

(** X13: on a tree of at least 1024^5 bytes the run does not scan at
    all, with or without a hash list: once the arguments are accepted and
    the hash list, if there is one, has validated, [init] hands back
    [None], [count/bar_width] raises [TypeError], no file reaches the
    content scanner and [bye] is not reached. *)
Theorem huge_tree_crashes_run w path more st :
  let files := enumerated path (w_tree w path) in
  accepted w (path :: more) st →
  1024 ^ 5 ≤ Z.of_N (total_bytes files) →
  let r := main w (path :: more) st in
  r.1 = Raise TypeError
  ∧ ∃ es, effects r.2 = effects st ++ es
          ∧ dofile_calls es = []
          ∧ ¬ In farewell es.
Proof.
  cbv zeta. intros Hacc Hge.
  destruct (main_reaches_finish w path more st Hacc)
    as (s & es0 & -> & Hes0 & Hd0 & Hbye0).
  destruct (scan_phase w path s)
    as [(Hlt & _) | (_ & es & Hrun & Hd & Hbye)]; [lia |].
  cbv zeta in Hrun. rewrite Hrun. cbn [fst snd]. split; [done |].
  unfold add_effects. cbn [effects]. exists (es0 ++ es).
  rewrite Hes0, <- app_assoc. split; [reflexivity |]. split.
  - by rewrite dofile_calls_app, Hd0, Hd.
  - intros Hin. by apply in_app_or in Hin as [Hin | Hin].
Qed.

(** X14: with a hash list that validates, the scan runs on what
    [get_hashes] has committed: the content scanner is called only after
    [get_hashes] has returned, and the hash set, the key and the regex are
    still the committed ones when the run ends. *)
Theorem scanner_runs_after_activation w path hashesfile st :
  let files := enumerated path (w_tree w path) in
  let activation :=
    get_hashes hashesfile (w_getpass w) (w_open w hashesfile) (started w st) in
  hashesfile ≠ "" →
  w_exists w path = true → w_exists w hashesfile = true →
  activation.1 = Ret tt →
  Z.of_N (total_bytes files) < 1024 ^ 5 →
  let r := main w [path; hashesfile] st in
  r.1 = Exit 1
  ∧ HASHES r.2 = HASHES activation.2
  ∧ HASH_KEY r.2 = HASH_KEY activation.2
  ∧ HASH_REGEX r.2 = HASH_REGEX activation.2
  ∧ dofile_calls (effects activation.2) = dofile_calls (effects st)
  ∧ ∃ es, effects r.2 = effects activation.2 ++ es
          ∧ dofile_calls es = omap scanner_call files.
Proof.
  cbv zeta. intros Hne%String.eqb_neq Hpath Hfile Hok Hlt.
  rewrite main_with_hashes, run_phase by done. rewrite Hne. cbn [negb].
  assert (dofile_calls
            (effects (get_hashes hashesfile (w_getpass w) (w_open w hashesfile)
                        (started w st)).2)
          = dofile_calls (effects st)) as Hcalls.
  { destruct (artifact_fields_cases (w_open w hashesfile))
      as [Hlen | (salt & verifier & Hf)].
    { by rewrite get_hashes_parse_failure in Hok. }
    rewrite (get_hashes_split _ _ _ _ _ _ Hf) in *. cbv zeta in *.
    destruct (failed _ _ _ _ _); [done |]. cbn [snd].
    unfold add_effects, with_hashes. cbn [effects].
    rewrite effects_after_verifier. unfold started, add_effects. cbn [effects].
    by calls. }
  unfold bind.
  destruct (get_hashes hashesfile (w_getpass w) (w_open w hashesfile) (started w st))
    as [ra sa]. cbn [fst snd] in *. subst ra.
  destruct (scan_phase w path sa) as [(_ & es & Hrun & Hd) | (Hge & _)]; [| lia].
  cbv zeta in Hrun. rewrite Hrun. cbn [fst snd].
  unfold add_effects. cbn [HASHES HASH_KEY HASH_REGEX effects].
  split; [done |]. split; [done |]. split; [done |]. split; [done |].
  split; [done |]. eexists. split; [reflexivity |].
  rewrite dofile_calls_app, Hd. simpl. by rewrite app_nil_r.
Qed.

(** X18: the tally is taken when the scan is over. In every run that
    gets to its end, with or without a hash list, [count_secrets] reads
    the log as it is after the last file has been dealt with: every call
    of the content scanner is before it, the number it tells is the
    number of markers in the log text of all that has happened until
    then, and its comment is the last entry before the farewell. *)
Theorem tally_follows_scan w path more st :
  let files := enumerated path (w_tree w path) in
  accepted w (path :: more) st →
  Z.of_N (total_bytes files) < 1024 ^ 5 →
  ∃ es,
    effects (main w (path :: more) st).2 =
      effects st ++ es
      ++ [Comment (Msg ("%d files or strings flagged as "
                        +:+ PyStr.dquote +:+ "secret" +:+ PyStr.dquote)
                       [AInt (Z.of_nat (PyStr.occurrences "SECRET,"
                                (w_log_text w (effects st ++ es))))]);
          farewell]
    ∧ dofile_calls es = omap scanner_call files.
Proof.
  cbv zeta. intros Hacc Hlt.
  destruct (main_reaches_finish w path more st Hacc)
    as (s & es0 & -> & Hes0 & Hd0 & _).
  destruct (scan_phase w path s)
    as [(_ & es & Hrun & Hd) | (Hge & _)]; [| lia].
  cbv zeta in Hrun. rewrite Hrun. cbn [snd].
  unfold add_effects. cbn [effects]. exists (es0 ++ es).
  rewrite Hes0, <- !app_assoc. split; [reflexivity |].
  by rewrite dofile_calls_app, Hd0, Hd.
Qed.


(** *** The walk, in full *)

Lemma files_at_child files subdirs nd p :
  NoDup (map fst subdirs) → In nd subdirs →
  files_at (Dir files subdirs) (nd.1 :: p) = files_at nd.2 p.
Proof.
  cbn [files_at]. induction subdirs as [| x rest IH]; [done |].
  intros [Hfresh Hnd]%NoDup_cons [-> | Hin].
  - by rewrite String.eqb_refl.
  - destruct (String.eqb x.1 nd.1) eqn:Heq; [| by apply IH].
    apply String.eqb_eq in Heq. destruct Hfresh. rewrite Heq.
    apply list_elem_of_In, in_map, Hin.
Qed.

Lemma walk_visited d : ∀ root r files,
  wf_dir d = true → In (r, files) (walk root d) →
  ∃ q, r = root ++ q ∧ Forall (λ name, name ∉ SKIP) q ∧ files = files_at d q.
Proof.
  induction d as [fs subdirs IH] using dir_induction.
  intros root r files Hwf. pose proof Hwf as [Hnd Hsub]%wf_dir_inv.
  rewrite walk_unfold by done. intros [Heq | Hin].
  - exists []. injection Heq as <- <-. by rewrite app_nil_r.
  - apply in_flat_map in Hin as (nd & Hnd_in & Hin).
    destruct (bool_decide (nd.1 ∈ SKIP)) eqn:Hskip; [done |].
    apply bool_decide_eq_false in Hskip.
    rewrite Forall_forall in IH, Hsub. apply list_elem_of_In in Hnd_in as Hnd_in'.
    destruct (IH nd Hnd_in' _ _ _ (Hsub nd Hnd_in') Hin) as (q & -> & Hq & ->).
    exists (nd.1 :: q). split; [by rewrite <- app_assoc |].
    split; [by constructor |]. symmetry. by apply files_at_child.
Qed.


Lemma walk_below d root r files :
  wf_dir d = true → In (r, files) (walk root d) → ∃ q, r = root ++ q.
Proof.
  intros Hwf Hin. destruct (walk_visited _ _ _ _ Hwf Hin) as (q & -> & _).
  by exists q.
Qed.

(** X16: in a tree whose sibling directories have distinct names, the
    walk visits no directory twice, so neither pass takes the files of a
    directory more than once. *)
Theorem no_directory_visited_twice d : ∀ root,
  wf_dir d = true → NoDup (map fst (walk root d)).
Proof.
  induction d as [fs subdirs IH] using dir_induction.
  intros root Hwf. pose proof Hwf as [Hnd Hsub]%wf_dir_inv.
  rewrite walk_unfold by done. cbn [map fst]. apply NoDup_cons. split.
  - intros Hin. apply list_elem_of_In, in_map_iff in Hin as ([r files] & Hr & Hin).
    cbn [fst] in Hr. subst r.
    apply in_flat_map in Hin as (nd & Hnd_in & Hin).
    destruct (bool_decide (nd.1 ∈ SKIP)); [done |].
    rewrite Forall_forall in Hsub. apply list_elem_of_In in Hnd_in.
    destruct (walk_below _ _ _ _ (Hsub nd Hnd_in) Hin) as (q & Hq).
    rewrite <- app_assoc in Hq. rewrite <- (app_nil_r root) in Hq at 1.
    by apply app_inv_head in Hq.
  - clear Hwf. induction subdirs as [| nd rest IHrest]; [constructor |].
    apply Forall_cons in IH as [IHnd IH]. apply Forall_cons in Hsub as [Hwfnd Hsub].
    apply NoDup_cons in Hnd as [Hfresh Hnd].
    cbn [flat_map]. rewrite map_app. apply NoDup_app.
    split; [| split; [| by apply IHrest]].
    + destruct (bool_decide (nd.1 ∈ SKIP)); [constructor | by apply IHnd].
    + intros r Hin1 Hin2.
      apply list_elem_of_In, in_map_iff in Hin1 as ([r1 f1] & Hr1 & Hin1).
      apply list_elem_of_In, in_map_iff in Hin2 as ([r2 f2] & Hr2 & Hin2).
      cbn [fst] in *. subst r1 r2.
      destruct (bool_decide (nd.1 ∈ SKIP)); [done |].
      destruct (walk_below _ _ _ _ Hwfnd Hin1) as (q1 & Hq1).
      apply in_flat_map in Hin2 as (nd' & Hnd' & Hin2).
      destruct (bool_decide (nd'.1 ∈ SKIP)); [done |].
      rewrite Forall_forall in Hsub. apply list_elem_of_In in Hnd' as Hnd''.
      destruct (walk_below _ _ _ _ (Hsub nd' Hnd'') Hin2) as (q2 & Hq2).
      rewrite Hq1, <- !app_assoc in Hq2. apply app_inv_head in Hq2.
      injection Hq2 as Hname _. apply Hfresh. rewrite Hname.
      apply list_elem_of_In, in_map, Hnd'.
Qed.

(** *** The text of the artifact *)

Lemma append_cons c s t : String c s +:+ t = String c (s +:+ t).
Proof. reflexivity. Qed.

Lemma append_nil t : EmptyString +:+ t = t.
Proof. reflexivity. Qed.

Lemma append_assoc s t u : (s +:+ t) +:+ u = s +:+ (t +:+ u).
Proof.
  induction s as [| c s IH]; [done |]. by rewrite !append_cons, IH.
Qed.

Lemma readline_line s rest :
  PyStr.no_newline s = true →
  PyStr.readline (s +:+ String PyStr.newline rest)
  = (s +:+ String PyStr.newline EmptyString, rest).
Proof.
  induction s as [| c s IH]; [done |].
  intros [Hc%negb_true_iff Hs]%andb_prop.
  rewrite !append_cons. cbn [PyStr.readline]. by rewrite Hc, (IH Hs).
Qed.

Lemma rstrip_with_snoc p s c :
  p c = true →
  PyStr.rstrip_with p (s +:+ String c EmptyString) = PyStr.rstrip_with p s.
Proof.
  intros Hc. induction s as [| a s IH].
  - rewrite append_nil. cbn [PyStr.rstrip_with]. by rewrite Hc.
  - rewrite append_cons. cbn [PyStr.rstrip_with]. by rewrite IH.
Qed.

Lemma rstrip_nl_clean s :
  PyStr.no_newline s = true → PyStr.rstrip_nl s = s.
Proof.
  unfold PyStr.rstrip_nl. induction s as [| c s IH]; [done |].
  intros [Hc%negb_true_iff Hs]%andb_prop.
  cbn [PyStr.rstrip_with]. rewrite (IH Hs). destruct s; [by rewrite Hc | done].
Qed.

Lemma rstrip_nl_line s :
  PyStr.no_newline s = true →
  PyStr.rstrip_nl (s +:+ String PyStr.newline EmptyString) = s.
Proof.
  intros Hs. unfold PyStr.rstrip_nl.
  rewrite rstrip_with_snoc by done. by apply rstrip_nl_clean.
Qed.

Lemma split_comma_none s :
  PyStr.commas s = 0%nat → PyStr.split_comma s = [s].
Proof.
  induction s as [| c s IH]; [done |]. cbn [PyStr.commas PyStr.split_comma].
  destruct (Ascii.eqb c PyStr.comma); [done |]. intros Hs. by rewrite IH.
Qed.

Lemma split_comma_pair salt verifier :
  PyStr.commas salt = 0%nat → PyStr.commas verifier = 0%nat →
  PyStr.split_comma (salt +:+ String PyStr.comma verifier) = [salt; verifier].
Proof.
  intros Hs Hv. induction salt as [| c salt IH].
  - rewrite append_nil. cbn [PyStr.split_comma].
    change (Ascii.eqb PyStr.comma PyStr.comma) with true. cbv iota.
    by rewrite split_comma_none.
  - cbn [PyStr.commas] in Hs. rewrite append_cons. cbn [PyStr.split_comma].
    destruct (Ascii.eqb c PyStr.comma); [done |]. by rewrite IH.
Qed.

Lemma file_lines_line h rest :
  PyStr.no_newline h = true →
  PyStr.file_lines (h +:+ String PyStr.newline rest)
  = (h +:+ String PyStr.newline EmptyString) :: PyStr.file_lines rest.
Proof.
  induction h as [| c h IH]; [done |].
  intros [Hc%negb_true_iff Hh]%andb_prop.
  rewrite !append_cons. cbn [PyStr.file_lines]. by rewrite Hc, (IH Hh).
Qed.

Lemma file_lines_hashes hashes :
  Forall (λ h, PyStr.no_newline h = true) hashes →
  PyStr.file_lines
    (PyStr.concat (map (λ h, h +:+ String PyStr.newline EmptyString) hashes))
  = map (λ h, h +:+ String PyStr.newline EmptyString) hashes.
Proof.
  induction 1 as [| h hashes Hh _ IH]; [done |].
  cbn [map PyStr.concat]. rewrite append_assoc, append_cons, append_nil.
  by rewrite file_lines_line, IH.
Qed.

Lemma lstrip_snoc s c :
  PyStr.isspace c = true →
  PyStr.lstrip_with PyStr.isspace (s +:+ String c EmptyString)
  = if PyStr.all_space s then EmptyString
    else PyStr.lstrip_with PyStr.isspace s +:+ String c EmptyString.
Proof.
  intros Hc. induction s as [| a s IH].
  - rewrite append_nil. cbn [PyStr.lstrip_with PyStr.all_space]. by rewrite Hc.
  - rewrite append_cons. cbn [PyStr.lstrip_with PyStr.all_space].
    by destruct (PyStr.isspace a).
Qed.

(** The newline that ends a line does not count for [strip]. *)
Lemma strip_line h :
  PyStr.strip (h +:+ String PyStr.newline EmptyString) = PyStr.strip h.
Proof.
  unfold PyStr.strip at 1. rewrite lstrip_snoc by done.
  destruct (PyStr.all_space h) eqn:Hh.
  - by rewrite strip_all_space.
  - by rewrite rstrip_with_snoc.
Qed.

Lemma make_artifact_parts regex salt verifier hashes :
  PyStr.no_newline regex = true →
  PyStr.no_newline salt = true → PyStr.commas salt = 0%nat →
  PyStr.no_newline verifier = true → PyStr.commas verifier = 0%nat →
  Forall (λ h, PyStr.no_newline h = true) hashes →
  let content := make_artifact regex salt verifier hashes in
  artifact_regex content = regex
  ∧ artifact_fields content = [salt; verifier]
  ∧ artifact_lines content
    = map (λ h, h +:+ String PyStr.newline EmptyString) hashes.
Proof.
  intros Hr Hs Hsc Hv Hvc Hh. cbv zeta.
  assert (PyStr.no_newline (salt +:+ String PyStr.comma verifier) = true) as Hsv.
  { clear -Hs Hv. induction salt as [| c salt IH].
    - done.
    - rewrite append_cons. cbn [PyStr.no_newline] in *.
      apply andb_prop in Hs as [-> Hs]. by rewrite IH. }
  assert (make_artifact regex salt verifier hashes
          = regex +:+ String PyStr.newline
              ((salt +:+ String PyStr.comma verifier)
               +:+ String PyStr.newline
                     (PyStr.concat
                        (map (λ h, h +:+ String PyStr.newline EmptyString) hashes))))
    as Hshape.
  { unfold make_artifact. by rewrite append_assoc, append_cons. }
  unfold artifact_regex, artifact_fields, artifact_lines. rewrite Hshape.
  rewrite (readline_line _ _ Hr). cbn [fst snd].
  rewrite (readline_line _ _ Hsv). cbn [fst snd].
  rewrite !rstrip_nl_line by done.
  by rewrite split_comma_pair, file_lines_hashes.
Qed.

(** X17: [get_hashes] reads back what a hash list is written from. On
    the text made of the regex on the first line, the salt, a comma and
    the verifier on the second, and one hash on each further line (no
    part holding a newline, the salt and the verifier no comma),
    [get_hashes] checks exactly these parts and skips none: it returns
    exactly when the verifier is the derived one, the regex compiles and
    every hash, once stripped, has the right length and is hexadecimal;
    and then [HASHES] is the set of the stripped hashes, [HASH_KEY] the
    key derived with this salt and [HASH_REGEX] this regex. *)
Theorem artifact_round_trip hashesfile pwd regex salt verifier hashes st :
  PyStr.no_newline regex = true →
  PyStr.no_newline salt = true → PyStr.commas salt = 0%nat →
  PyStr.no_newline verifier = true → PyStr.commas verifier = 0%nat →
  Forall (λ h, PyStr.no_newline h = true) hashes →
  let r := get_hashes hashesfile pwd (make_artifact regex salt verifier hashes) st in
  (r.1 = Ret tt
   ↔ verifier = (key_derivation pwd salt).1.2
     ∧ re_compiles regex = true
     ∧ Forall (λ h, bad_length (PyStr.strip h) = false
                    ∧ bad_hex (PyStr.strip h) = false) hashes)
  ∧ (r.1 = Ret tt →
     HASHES r.2 = list_to_set (map PyStr.strip hashes)
     ∧ HASH_KEY r.2 = DerivedKey (derived_key pwd salt)
     ∧ HASH_REGEX r.2 = regex).
Proof.
  intros Hr Hs Hsc Hv Hvc Hh. cbv zeta.
  destruct (make_artifact_parts regex salt verifier hashes Hr Hs Hsc Hv Hvc Hh)
    as (Hregex & Hfields & Hlines).
  rewrite (get_hashes_split _ _ _ _ _ _ Hfields). cbv zeta.
  rewrite Hregex, Hlines.
  assert (map PyStr.strip
            (map (λ h, h +:+ String PyStr.newline EmptyString) hashes)
          = map PyStr.strip hashes) as Hstrip.
  { rewrite map_map. apply map_ext. intros h. apply strip_line. }
  assert (existsb malformed
            (map (λ h, h +:+ String PyStr.newline EmptyString) hashes) = false
          ↔ Forall (λ h, bad_length (PyStr.strip h) = false
                         ∧ bad_hex (PyStr.strip h) = false) hashes) as Hall.
  { rewrite existsb_malformed_false, Forall_map. apply Forall_iff. intros h.
    unfold malformed. cbn. rewrite strip_line. apply orb_false_iff. }
  destruct (failed _ _ _ _ _) eqn:Hfail; cbn [fst snd]; unfold failed in Hfail.
  - split; [| done]. split; [done |]. intros (Hver & Hre & Hgood).
    apply Hall in Hgood.
    assert (mismatch pwd salt verifier = false) as Hm.
    { apply not_true_is_false. by intros Hm%mismatch_true. }
    by rewrite Hm, Hre, Hgood in Hfail.
  - apply orb_false_elim in Hfail as [[Hm Hre]%orb_false_elim Hgood].
    split.
    + split; [| done]. intros _. split; [| split].
      * apply dec_stable. intros Hne%mismatch_true. congruence.
      * by apply negb_false_iff.
      * by apply Hall.
    + intros _. unfold after_verifier. rewrite Hm, Hstrip. done.
Qed.

End Core.

(** ** The properties on concrete inputs *)

Local Abbreviation sample_initial := (initial (key := string) (ftype := string)).

Local Abbreviation sample_get_hashes :=
  (get_hashes (key := string) (ftype := string) Sample.HASH_BYTES "blueflower"
     Sample.key_derivation Sample.re_compiles Sample.int16_parses).

Local Abbreviation sample_validate :=
  (validate (key := string) (ftype := string) Sample.HASH_BYTES
     Sample.key_derivation Sample.re_compiles Sample.int16_parses).

Local Abbreviation sample_malformed :=
  (malformed Sample.HASH_BYTES Sample.int16_parses).

Local Abbreviation sample_init :=
  (init (key := string) (ftype := string) Sample.SKIP).

Local Abbreviation sample_scan :=
  (scan (key := string) (ftype := string) Sample.SKIP Sample.ENCRYPTED
     Sample.infilename_search Sample.type_file Sample.abspath).

Local Abbreviation sample_main :=
  (main (key := string) (ftype := string) Sample.HASH_BYTES Sample.SKIP
     Sample.ENCRYPTED "blueflower" "0.1" Sample.key_derivation
     Sample.re_compiles Sample.int16_parses Sample.infilename_search
     Sample.type_file Sample.abspath).

(** A world in which every path exists, the scan root holds [Sample.tree],
    the hash list is the given artifact and the password typed is [pw]. *)
Local Abbreviation sample_world artifact :=
  (World (ftype := string) (λ _, true) (λ _, Sample.tree) (λ _, artifact)
     "pw" "2014" (λ _, "")).

(** The end-to-end scenario: three files are sized, one is processed. *)
Example scenario_counts :
  (sample_init "root" Sample.tree sample_initial).1 = Ret (PyInt 3)
  ∧ (sample_scan "root" (PyInt 3) Sample.tree sample_initial).1 = Ret (PyInt 1)
  ∧ dofile_calls (effects (sample_scan "root" (PyInt 3) Sample.tree sample_initial).2)
    = [("text", ["/"; "root"; "id_rsa"])]
  ∧ encrypted_notices (effects (sample_scan "root" (PyInt 3) Sample.tree sample_initial).2)
    = [("gpg", "secrets.gpg")].
Proof. by vm_compute. Qed.

(** C1 fails as stated: the verifier matches and the regex does not
    compile, so the validation fails and the run is ended, and yet the key
    and the regex have been committed. *)
Lemma key_committed_on_failure :
  let r := sample_get_hashes "hashes" "pw" Sample.bad_regex sample_initial in
  r.1 = Exit 1
  ∧ HASH_KEY r.2 = DerivedKey "pwsalt" ∧ HASH_KEY r.2 ≠ HASH_KEY sample_initial
  ∧ HASH_REGEX r.2 = "(" ∧ HASH_REGEX r.2 ≠ HASH_REGEX sample_initial.
Proof. by vm_compute. Qed.

Lemma commit_rules_witness :
  let r := sample_get_hashes "hashes" "pw" Sample.bad_verifier sample_initial in
  r.1 = Exit 1
  ∧ HASHES r.2 = HASHES sample_initial
  ∧ HASH_KEY r.2 = HASH_KEY sample_initial
  ∧ HASH_REGEX r.2 = HASH_REGEX sample_initial.
Proof.
  cbv zeta.
  destruct (commit_rules (key := string) (ftype := string)
              Sample.HASH_BYTES Sample.SKIP Sample.ENCRYPTED "blueflower" "0.1"
              Sample.key_derivation Sample.re_compiles Sample.int16_parses
              Sample.infilename_search Sample.type_file Sample.abspath
              "hashes" "pw" Sample.bad_verifier sample_initial)
    as (_ & _ & _ & _ & Hmismatch & _ & _).
  apply (Hmismatch "salt" "nope"); [reflexivity | discriminate].
Defined.

(** C2 fails as stated: the only hash line of the artifact looks valid,
    but the verifier had not matched, and the line is not buffered. *)
Lemma valid_line_not_buffered :
  let lines := artifact_lines Sample.bad_verifier in
  let r := sample_validate "pw" "re" "salt" "nope" lines sample_initial in
  lines = ["ab" +:+ Sample.nl]
  ∧ sample_malformed ("ab" +:+ Sample.nl) = false
  ∧ r.1 = Ret (true, []).
Proof. by vm_compute. Qed.



Lemma failures_accumulate_witness :
  let r := sample_get_hashes "hashes" "pw" Sample.bad_both sample_initial in
  r.1 = Exit 1
  ∧ In (Comment (Msg "verifier does not match (incorrect password?)" [])) (effects r.2)
  ∧ In (Comment (Msg "invalid regex" [])) (effects r.2).
Proof.
  cbv zeta.
  destruct (failures_accumulate (key := string) (ftype := string)
              Sample.HASH_BYTES "blueflower" Sample.key_derivation
              Sample.re_compiles Sample.int16_parses
              "hashes" "pw" Sample.bad_both sample_initial "salt" "nope")
    as (Hrun & _ & _).
  - reflexivity.
  - discriminate.
  - reflexivity.
  - rewrite Hrun. split; [reflexivity |].
    split; simpl; [right; right; by left | right; right; right; by left].
Defined.

Lemma parse_failure_aborts_witness :
  sample_get_hashes "hashes" "pw" Sample.no_comma sample_initial =
  (Exit 1,
   add_effects sample_initial
     (opening "hashes"
      ++ [Comment (Msg "failed to extract verifier and salt" []);
          farewell "blueflower"])).
Proof.
  apply (parse_failure_aborts (key := string) (ftype := string)).
  vm_compute. discriminate.
Defined.

Lemma uniqueness_accounting_witness :
  let r := sample_get_hashes "hashes" "pw" Sample.good sample_initial in
  r.1 = Ret tt
  ∧ length (map PyStr.strip (artifact_lines Sample.good)) = 3%nat
  ∧ size (HASHES r.2) = 2%nat.
Proof.
  cbv zeta.
  assert ((sample_get_hashes "hashes" "pw" Sample.good sample_initial).1 = Ret tt)
    as Hok by reflexivity.
  destruct (uniqueness_accounting (key := string) (ftype := string)
              Sample.HASH_BYTES "blueflower" Sample.key_derivation
              Sample.re_compiles Sample.int16_parses
              "hashes" "pw" Sample.good sample_initial Hok)
    as (_ & Hsize & _).
  split; [exact Hok |]. split; [reflexivity |].
  rewrite Hsize. reflexivity.
Defined.

Lemma exclusion_is_total_witness :
  In ("config", Size 7) (files_at Sample.tree ["src"; ".git"; "hooks"])
  ∧ ¬ In (["root"] ++ ["src"; ".git"; "hooks"], ("config", Size 7))
         (enumerated Sample.SKIP "root" Sample.tree)
  ∧ sample_init "root" Sample.tree sample_initial
    = sample_init "root" (erase Sample.SKIP Sample.tree) sample_initial.
Proof.
  destruct (exclusion_is_total (key := string) (ftype := string)
              Sample.SKIP Sample.ENCRYPTED Sample.infilename_search
              Sample.type_file Sample.abspath
              "root" (PyInt 3) Sample.tree sample_initial ["src"; ".git"; "hooks"])
    as (_ & Hfiles & Hinit & _).
  - reflexivity.
  - apply Exists_cons_tl, Exists_cons_hd. constructor.
  - split; [by left |]. split; [apply Hfiles | exact Hinit].
Defined.

Lemma encrypted_never_scanned_witness :
  ∃ es,
    sample_scan "root" (PyInt 3) Sample.tree sample_initial =
      (Ret (PyInt (Z.of_nat (length (dofile_calls es)))), add_effects sample_initial es)
    ∧ In (Encrypted "gpg" "secrets.gpg") es
    ∧ ∀ t', ¬ In (DoFile t' (Sample.abspath ["root"; "secrets.gpg"])) es.
Proof.
  destruct (encrypted_never_scanned (key := string) (ftype := string)
              Sample.SKIP Sample.ENCRYPTED Sample.infilename_search
              Sample.type_file Sample.abspath
              "root" 3 Sample.tree sample_initial ["root"] ("secrets.gpg", Size 42) "gpg")
    as (es & Hrun & Hnotice & Hcalls & _).
  - vm_compute. right. right. by left.
  - reflexivity.
  - constructor.
  - exists es. split; [exact Hrun |]. split; [exact Hnotice | exact Hcalls].
Defined.

(** C9 fails as stated: the marker occurs once in the log, and what
    [count_secrets] hands back is [None], not the number 1. *)
Lemma count_secrets_returns_none :
  PyStr.occurrences "SECRET," "SECRET,/home/u/id_rsa" = 1%nat
  ∧ (count_secrets (key := string) (ftype := string) "SECRET,/home/u/id_rsa" sample_initial).1
    = Ret PyNone
  ∧ (count_secrets (key := string) (ftype := string) "SECRET,/home/u/id_rsa" sample_initial).1
    ≠ Ret (PyInt 1).
Proof. by vm_compute. Qed.

Lemma init_returns_none_witness :
  (sample_init "root" Sample.huge sample_initial).1 = Ret PyNone
  ∧ (sample_init "root" Sample.tree sample_initial).1 = Ret (PyInt 3).
Proof.
  rewrite !(init_returns_none_from_1024_tib (key := string) (ftype := string)).
  split; reflexivity.
Defined.
  

(** ** The further properties on concrete inputs *)

(** A world in which every path exists, with the given tree and hash
    list; the password typed is [pw]. *)
Local Abbreviation sample_world_of tree artifact :=
  (World (ftype := string) (λ _, true) (λ _, tree) (λ _, artifact)
     "pw" "2014" (λ _, "")).

(** The world of the scenario with a log file that holds the filename
    findings. *)
Local Abbreviation sample_logging_world artifact :=
  (World (ftype := string) (λ _, true) (λ _, Sample.tree) (λ _, artifact)
     "pw" "2014" (marker_log (ftype := string))).

Lemma activated_hashes_well_formed_witness :
  String.length "cd" = (2 * Sample.HASH_BYTES)%nat
  ∧ Sample.int16_parses "cd" = true.
Proof.
  destruct (activated_hashes_well_formed (key := string) (ftype := string)
              Sample.HASH_BYTES "blueflower" Sample.key_derivation
              Sample.re_compiles Sample.int16_parses
              "hashes" "pw" Sample.good sample_initial "cd")
    as (Hlength & Hhex & _).
  - reflexivity.
  - apply (bool_decide_unpack _). vm_compute. exact I.
  - split; [exact Hlength | exact Hhex].
Defined.

Lemma verifier_line_needs_one_comma_witness :
  sample_get_hashes "hashes" "pw" Sample.one_line sample_initial =
  (Exit 1,
   add_effects sample_initial
     (opening "hashes"
      ++ [Comment (Msg "failed to extract verifier and salt" []);
          farewell "blueflower"])).
Proof.
  apply (verifier_line_needs_one_comma (key := string) (ftype := string)).
  reflexivity.
Defined.

Lemma blank_hash_line_rejects_witness :
  (sample_get_hashes "hashes" "pw" Sample.blank_line sample_initial).1 = Exit 1.
Proof.
  apply (blank_hash_line_rejects (key := string) (ftype := string)
           Sample.HASH_BYTES "blueflower" Sample.key_derivation
           Sample.re_compiles Sample.int16_parses
           "hashes" "pw" Sample.blank_line sample_initial
           "salt" "vpw" (" " +:+ Sample.nl)).
  - unfold Sample.HASH_BYTES. lia.
  - reflexivity.
  - vm_compute. right. by left.
  - reflexivity.
Defined.

Lemma hash_order_irrelevant_witness :
  (sample_get_hashes "hashes" "pw" Sample.good sample_initial).1
  = (sample_get_hashes "hashes" "pw" Sample.reordered sample_initial).1
  ∧ HASHES (sample_get_hashes "hashes" "pw" Sample.good sample_initial).2
    = HASHES (sample_get_hashes "hashes" "pw" Sample.reordered sample_initial).2.
Proof.
  destruct (hash_order_irrelevant (key := string) (ftype := string)
              Sample.HASH_BYTES "blueflower" Sample.key_derivation
              Sample.re_compiles Sample.int16_parses
              "hashes" "pw" Sample.good Sample.reordered sample_initial)
    as (Hresult & Hhashes & _).
  - reflexivity.
  - reflexivity.
  - change (["ab"; "cd"; "ab"] ≡ₚ ["ab"; "ab"; "cd"]).
    apply perm_skip, perm_swap.
  - split; [exact Hresult | exact Hhashes].
Defined.

Lemma init_scales_size_witness :
  ∃ k unit,
    units !! k = Some unit
    ∧ last (effects (sample_init "root" Sample.tree sample_initial).2)
      = Some (size_comment
                (Z.of_nat (length (enumerated Sample.SKIP "root" Sample.tree)))
                (scaled (total_bytes (enumerated Sample.SKIP "root" Sample.tree)) k)
                unit)
    ∧ (scaled (total_bytes (enumerated Sample.SKIP "root" Sample.tree)) k
       < inject_Z 1024)%Q
    ∧ (k = 0%nat
       ∨ (1 <= scaled (total_bytes (enumerated Sample.SKIP "root" Sample.tree)) k)%Q).
Proof.
  apply (init_scales_size (key := string) (ftype := string)).
  reflexivity.
Defined.

Lemma main_never_succeeds_witness :
  (sample_main (sample_world Sample.good) [] sample_initial).1 = Ret (PyInt 1).
Proof.
  apply (proj1 (main_never_succeeds (key := string) (ftype := string)
           Sample.HASH_BYTES Sample.SKIP Sample.ENCRYPTED "blueflower" "0.1"
           Sample.key_derivation Sample.re_compiles Sample.int16_parses
           Sample.infilename_search Sample.type_file Sample.abspath
           (sample_world Sample.good) [] sample_initial)).
  exact I.
Defined.

Lemma complete_run_without_hashes_witness :
  (sample_main (sample_world Sample.good) ["root"] sample_initial).1 = Exit 1
  ∧ dofile_calls
      (effects (sample_main (sample_world Sample.good) ["root"] sample_initial).2)
    = [("text", ["/"; "root"; "id_rsa"])].
Proof.
  destruct (complete_run_without_hashes (key := string) (ftype := string)
              Sample.HASH_BYTES Sample.SKIP Sample.ENCRYPTED "blueflower" "0.1"
              Sample.key_derivation Sample.re_compiles Sample.int16_parses
              Sample.infilename_search Sample.type_file Sample.abspath
              (sample_world Sample.good) "root" sample_initial)
    as (Hexit & Hcalls & _).
  - reflexivity.
  - reflexivity.
  - split; [exact Hexit |]. rewrite Hcalls. reflexivity.
Defined.

Lemma huge_tree_crashes_run_witness :
  (sample_main (sample_world_of Sample.huge Sample.good) ["root"; "hashes"]
     sample_initial).1
  = Raise TypeError.
Proof.
  apply (huge_tree_crashes_run (key := string) (ftype := string)
           Sample.HASH_BYTES Sample.SKIP Sample.ENCRYPTED "blueflower" "0.1"
           Sample.key_derivation Sample.re_compiles Sample.int16_parses
           Sample.infilename_search Sample.type_file Sample.abspath
           (sample_world_of Sample.huge Sample.good) "root" ["hashes"]
           sample_initial).
  - split; [reflexivity |]. split; [reflexivity |]. right. vm_compute. reflexivity.
  - vm_compute. discriminate.
Defined.

Lemma scanner_runs_after_activation_witness :
  (sample_main (sample_world Sample.good) ["root"; "hashes"] sample_initial).1
  = Exit 1
  ∧ HASH_KEY
      (sample_main (sample_world Sample.good) ["root"; "hashes"] sample_initial).2
    = DerivedKey "pwsalt".
Proof.
  destruct (scanner_runs_after_activation (key := string) (ftype := string)
              Sample.HASH_BYTES Sample.SKIP Sample.ENCRYPTED "blueflower" "0.1"
              Sample.key_derivation Sample.re_compiles Sample.int16_parses
              Sample.infilename_search Sample.type_file Sample.abspath
              (sample_world Sample.good) "root" "hashes" sample_initial)
    as (Hexit & _ & Hkey & _).
  - discriminate.
  - reflexivity.
  - reflexivity.
  - reflexivity.
  - reflexivity.
  - split; [exact Hexit |]. rewrite Hkey. reflexivity.
Defined.

Lemma tally_follows_scan_witness :
  let r := sample_main (sample_logging_world Sample.good) ["root"; "hashes"]
             sample_initial in
  ∃ es,
    effects r.2 =
      effects sample_initial ++ es
      ++ [Comment (Msg ("%d files or strings flagged as "
                        +:+ PyStr.dquote +:+ "secret" +:+ PyStr.dquote)
                       [AInt (Z.of_nat (PyStr.occurrences "SECRET,"
                                (marker_log (effects sample_initial ++ es))))]);
          farewell "blueflower"]
    ∧ dofile_calls es = [("text", ["/"; "root"; "id_rsa"])]
    ∧ PyStr.occurrences "SECRET," (marker_log (effects sample_initial ++ es)) = 1%nat.
Proof.
  cbv zeta.
  destruct (tally_follows_scan (key := string) (ftype := string)
              Sample.HASH_BYTES Sample.SKIP Sample.ENCRYPTED "blueflower" "0.1"
              Sample.key_derivation Sample.re_compiles Sample.int16_parses
              Sample.infilename_search Sample.type_file Sample.abspath
              (sample_logging_world Sample.good) "root" ["hashes"] sample_initial)
    as (es & Heffects & Hcalls).
  - split; [reflexivity |]. split; [reflexivity |]. right. vm_compute. reflexivity.
  - reflexivity.
  - exists es. split; [exact Heffects |]. split; [exact Hcalls |].
    change (effects sample_initial ++ es) with es in *.
    cbn [w_log_text] in Heffects.
    unfold initial in Heffects. cbn [effects] in Heffects.
    rewrite app_nil_l in Heffects.
    set (L := effects _) in Heffects.
    assert (es = take (length L - 2) L) as ->.
    { rewrite Heffects, length_app. cbn [length].
      replace (length es + 2 - 2)%nat with (length es) by lia.
      by rewrite take_app_length. }
    vm_compute. reflexivity.
Defined.


Lemma no_directory_visited_twice_witness :
  NoDup (map fst (walk Sample.SKIP ["root"] Sample.tree)).
Proof. apply no_directory_visited_twice. reflexivity. Defined.

Lemma artifact_round_trip_witness :
  make_artifact "re" "salt" "vpw" ["ab"; " cd "; "ab"] = Sample.good
  ∧ (sample_get_hashes "hashes" "pw" Sample.good sample_initial).1 = Ret tt
  ∧ HASHES (sample_get_hashes "hashes" "pw" Sample.good sample_initial).2
    = list_to_set (map PyStr.strip ["ab"; " cd "; "ab"]).
Proof.
  split; [reflexivity |].
  destruct (artifact_round_trip (key := string) (ftype := string)
              Sample.HASH_BYTES "blueflower" Sample.key_derivation
              Sample.re_compiles Sample.int16_parses
              "hashes" "pw" "re" "salt" "vpw" ["ab"; " cd "; "ab"] sample_initial)
    as (Hiff & Hcommit).
  - reflexivity.
  - reflexivity.
  - reflexivity.
  - reflexivity.
  - reflexivity.
  - repeat constructor.
  - assert ((sample_get_hashes "hashes" "pw" Sample.good sample_initial).1 = Ret tt)
      as Hret.
    { apply Hiff. split; [reflexivity |]. split; [reflexivity |].
      repeat constructor. }
    split; [exact Hret |]. by apply Hcommit.
Defined.
